(** * fc-ai-pd12m: the join notebook and the global-table pipeline

    A shallow embedding of [notebooks/02-dv-join_data.ipynb]: the cells that
    enumerate the parquet shards, join the downloaded metadata with the
    original metadata, reshape the joined frame to the public schema and
    save it.  The polars primitives the notebook calls ([join], [drop],
    [rename], [with_columns] and the expressions inside them) are embedded
    as functions over a columnar frame, with the library's exceptions as an
    error result. *)

From Stdlib Require Import ZArith String Ascii SpecFloat.
From Stdlib.Strings Require Import Byte.
From stdpp Require Import base decidable option list strings gmap.

Open Scope string_scope.
Open Scope list_scope.

(** ** Exceptions as results *)

Inductive error : Type :=
| ColumnNotFoundError (c : string)
| DuplicateError
| SchemaError
| InvalidOperationError
| ShapeError
| ValueError (msg : string)
| FileNotFoundError (msg : string)
| OSError (msg : string).

Inductive result (A : Type) : Type :=
| Ok (a : A)
| Err (e : error).
Arguments Ok {A} a.
Arguments Err {A} e.

(** Sequencing stops at the first exception: [x ← c; k] is stdpp's bind
    notation at this instance. *)
#[global] Instance result_ret : MRet result := fun _ a => Ok a.
#[global] Instance result_bind : MBind result := fun _ _ k c =>
  match c with
  | Ok a => k a
  | Err e => Err e
  end.

(** ** Frames, columns and cells (polars) *)

Module Polars.

(** IEEE-754 binary64, as the Standard Library specifies it. *)
Definition prec : Z := 53%Z.
Definition emax : Z := 1024%Z.
Definition float64 : Type := spec_float.
Definition float_of_int (z : Z) : float64 := binary_normalize prec emax z 0%Z false.
Definition float_div (x y : float64) : float64 := SFdiv prec emax x y.
Definition float_add (x y : float64) : float64 := SFadd prec emax x y.

Inductive DType : Type := Int64 | Float64 | Utf8.

(** A cell.  [VNull] is polars' null (the source's "absent"). *)
Inductive value : Type :=
| VNull
| VInt (z : Z)
| VFloat (f : float64)
| VStr (s : string).

#[global] Instance DType_eq_dec : EqDecision DType.
Proof. solve_decision. Defined.
#[global] Instance spec_float_eq_dec : EqDecision spec_float.
Proof. solve_decision. Defined.
#[global] Instance value_eq_dec : EqDecision value.
Proof. solve_decision. Defined.

Record Series : Type := mkSeries {
  name : string;
  dtype : DType;
  values : list value
}.

(** A frame is the ordered list of its columns. *)
Abbreviation DataFrame := (list Series).

Definition columns (df : DataFrame) : list string := name <$> df.

Definition height (df : DataFrame) : nat :=
  match df with
  | [] => 0
  | s :: _ => length (values s)
  end.

Definition get_column (df : DataFrame) (c : string) : option Series :=
  snd <$> list_find (fun s => name s = c) df.

Definition column (df : DataFrame) (c : string) : result Series :=
  match get_column df c with
  | Some s => Ok s
  | None => Err (ColumnNotFoundError c)
  end.

(** The cell of column [c] in row [i]; [None] when there is no such column
    or no such row. *)
Definition cell (df : DataFrame) (c : string) (i : nat) : option value :=
  s ← get_column df c; values s !! i.

Definition has_dtype (t : DType) (v : value) : Prop :=
  match v, t with
  | VNull, _ => True
  | VInt z, Int64 => (- 2 ^ 63 <= z < 2 ^ 63)%Z
  | VFloat _, Float64 => True
  | VStr _, Utf8 => True
  | _, _ => False
  end.

#[global] Instance has_dtype_dec t v : Decision (has_dtype t v).
Proof. destruct v, t; simpl; apply _. Defined.

(** Every column has [n] cells. *)
Definition rect (n : nat) (df : DataFrame) : Prop :=
  Forall (fun s => length (values s) = n) df.

(** What polars maintains for every frame: distinct column names, columns
    of one length, cells of the column's dtype. *)
Definition wf (df : DataFrame) : Prop :=
  NoDup (columns df)
  /\ rect (height df) df
  /\ Forall (fun s => Forall (has_dtype (dtype s)) (values s)) df.

#[global] Instance wf_dec df : Decision (wf df).
Proof. unfold wf, rect. apply _. Defined.

(** [DataFrame.drop(cols)], strict: a name that is no column raises. *)
Definition drop (df : DataFrame) (cols : list string) : result DataFrame :=
  match list_find (fun c => c ∉ columns df) cols with
  | Some (_, c) => Err (ColumnNotFoundError c)
  | None => Ok (filter (fun s => name s ∉ cols) df)
  end.

Definition rename_series (mapping : list (string * string)) (s : Series) : Series :=
  match list_find (fun kv => kv.1 = name s) mapping with
  | Some (_, (_, new)) => mkSeries new (dtype s) (values s)
  | None => s
  end.

(** [DataFrame.rename(mapping)], strict: a key that is no column raises;
    the columns are renamed at once and the frame is rebuilt, which raises
    when two columns end up with one name. *)
Definition rename (df : DataFrame) (mapping : list (string * string)) : result DataFrame :=
  match list_find (fun kv => kv.1 ∉ columns df) mapping with
  | Some (_, (k, _)) => Err (ColumnNotFoundError k)
  | None =>
      let out := rename_series mapping <$> df in
      if decide (NoDup (columns out)) then Ok out else Err DuplicateError
  end.

(** *** Expressions *)

(** The expressions the notebook builds: [pl.col], a string literal (the
    right operand of [+]), [.str.slice], [.cast], [+], [/] and [.alias]. *)
Inductive expr : Type :=
| Col (c : string)
| Lit (s : string)
| StrSlice (e : expr) (offset len : nat)
| Cast (e : expr) (t : DType)
| Add (e1 e2 : expr)
| TrueDiv (e1 e2 : expr)
| Alias (e : expr) (n : string).

(** [str.slice(offset, len)] on one cell; a string is its sequence of
    characters. *)
Definition str_slice (offset len : nat) (v : value) : value :=
  match v with
  | VStr s => VStr (substring offset len s)
  | _ => VNull
  end.

(** Int64 arithmetic wraps in two's complement. *)
Definition wrap64 (z : Z) : Z :=
  ((z + 2 ^ 63) mod 2 ^ 64 - 2 ^ 63)%Z.

Definition to_float (v : value) : option float64 :=
  match v with
  | VInt z => Some (float_of_int z)
  | VFloat f => Some f
  | _ => None
  end.

(** One cell of [a + b]; null when either side is null. *)
Definition add_value (a b : value) : value :=
  match a, b with
  | VStr x, VStr y => VStr (x +:+ y)
  | VInt x, VInt y => VInt (wrap64 (x + y))
  | VNull, _ | _, VNull => VNull
  | _, _ =>
      match to_float a, to_float b with
      | Some x, Some y => VFloat (float_add x y)
      | _, _ => VNull
      end
  end.

(** One cell of [a / b], polars' true division: both sides as float64 and
    the IEEE quotient, a zero divisor included; null when either side is
    null. *)
Definition div_value (a b : value) : value :=
  match to_float a, to_float b with
  | Some x, Some y => VFloat (float_div x y)
  | _, _ => VNull
  end.

Definition add_dtype (a b : DType) : result DType :=
  match a, b with
  | Utf8, Utf8 => Ok Utf8
  | Utf8, _ | _, Utf8 => Err InvalidOperationError
  | Int64, Int64 => Ok Int64
  | _, _ => Ok Float64
  end.

Definition div_dtype (a b : DType) : result DType :=
  match a, b with
  | Utf8, _ | _, Utf8 => Err InvalidOperationError
  | _, _ => Ok Float64
  end.

(** [.cast(t)].  The notebook casts a string column to [Utf8] and a float
    column to [Float64]; of the conversions that change the dtype only the
    integer to float one is embedded, the others are rejected. *)
Definition cast_series (s : Series) (t : DType) : result Series :=
  if decide (dtype s = t) then Ok s
  else match dtype s, t with
       | Int64, Float64 =>
           Ok (mkSeries (name s) Float64
                 ((fun v => from_option VFloat VNull (to_float v)) <$> values s))
       | _, _ => Err InvalidOperationError
       end.

(** Evaluation against a frame.  A literal is broadcast to the frame's
    height; a binary operation keeps the name of its left operand. *)
Fixpoint eval (df : DataFrame) (e : expr) : result Series :=
  match e with
  | Col c => column df c
  | Lit s => Ok (mkSeries "literal" Utf8 (replicate (height df) (VStr s)))
  | StrSlice e offset len =>
      s ← eval df e;
      if decide (dtype s = Utf8)
      then Ok (mkSeries (name s) Utf8 (str_slice offset len <$> values s))
      else Err SchemaError
  | Cast e t => s ← eval df e; cast_series s t
  | Add e1 e2 =>
      a ← eval df e1; b ← eval df e2;
      t ← add_dtype (dtype a) (dtype b);
      Ok (mkSeries (name a) t (zip_with add_value (values a) (values b)))
  | TrueDiv e1 e2 =>
      a ← eval df e1; b ← eval df e2;
      t ← div_dtype (dtype a) (dtype b);
      Ok (mkSeries (name a) t (zip_with div_value (values a) (values b)))
  | Alias e n => s ← eval df e; Ok (mkSeries n (dtype s) (values s))
  end.

(** A new column replaces the column of its name, or is appended. *)
Definition with_column (df : DataFrame) (s : Series) : DataFrame :=
  if decide (name s ∈ columns df)
  then (fun c => if decide (name c = name s) then s else c) <$> df
  else df ++ [s].

(** [DataFrame.with_columns(exprs)]: every expression is evaluated against
    the frame as it was; two outputs of one name raise. *)
Definition with_columns (df : DataFrame) (exprs : list expr) : result DataFrame :=
  new ← mapM (eval df) exprs;
  if decide (NoDup (columns new))
  then Ok (foldl with_column df new)
  else Err DuplicateError.

(** *** Left join *)

Definition take_rows (idx : list nat) (s : Series) : Series :=
  mkSeries (name s) (dtype s) ((fun i => default VNull (values s !! i)) <$> idx).

Definition take_opt_rows (idx : list (option nat)) (s : Series) : Series :=
  mkSeries (name s) (dtype s)
    ((fun oi => default VNull (i ← oi; values s !! i)) <$> idx).

(** The rows of the right key column that equal [k].  Keys are compared by
    equality of the cells (for strings: the same characters); a null key
    matches nothing.  The join lists the rows in the order of the left
    frame. *)
Definition matches (k : value) (right_keys : list value) : list nat :=
  if decide (k = VNull) then []
  else fst <$> filter (fun jv => jv.2 = k) (imap pair right_keys).

(** Left row [i] with key [k] is paired with each matching right row, or
    with no row when none matches. *)
Definition left_join_row (right_keys : list value) (i : nat) (k : value)
  : list (nat * option nat) :=
  match matches k right_keys with
  | [] => [(i, None)]
  | js => (fun j => (i, Some j)) <$> js
  end.

Definition left_join_indices (left_keys right_keys : list value)
  : list (nat * option nat) :=
  mjoin (imap (left_join_row right_keys) left_keys).

Definition suffix_right (left_names : list string) (s : Series) : Series :=
  if decide (name s ∈ left_names)
  then mkSeries (name s +:+ "_right") (dtype s) (values s)
  else s.

(** The rows of a left join: the left columns gathered at the left
    indices, then the right columns but the key, gathered at the right
    indices and suffixed where their name is a left column's. *)
Definition join_rows (left right : DataFrame) (on : string) (lk rk : Series)
  : DataFrame :=
  let idx := left_join_indices (values lk) (values rk) in
  (take_rows (idx.*1) <$> left)
  ++ ((fun s => suffix_right (columns left) (take_opt_rows (idx.*2) s))
        <$> filter (fun s => name s ≠ on) right).

(** [left.join(right, on=on, how="left")] *)
Definition join_left (left right : DataFrame) (on : string) : result DataFrame :=
  lk ← column left on;
  rk ← column right on;
  if decide (dtype lk = dtype rk) then
    let out := join_rows left right on lk rk in
    if decide (NoDup (columns out)) then Ok out else Err DuplicateError
  else Err SchemaError.

(** The column names of a left join. *)
Definition join_columns (left right : DataFrame) (on : string) : list string :=
  columns left
  ++ ((fun s => if decide (name s ∈ columns left) then name s +:+ "_right" else name s)
        <$> filter (fun s => name s ≠ on) right).

(** [pl.concat(dfs, how="vertical")]: the frames must have one schema. *)
Definition schema (df : DataFrame) : list (string * DType) :=
  (fun s => (name s, dtype s)) <$> df.

Definition vstack (a b : DataFrame) : DataFrame :=
  zip_with (fun s t => mkSeries (name s) (dtype s) (values s ++ values t)) a b.

Definition concat (dfs : list DataFrame) : result DataFrame :=
  match dfs with
  | [] => Err (ValueError "cannot concat empty list")
  | df :: rest =>
      foldl (fun acc d =>
               acc ← acc;
               if decide (schema acc = schema d) then Ok (vstack acc d)
               else Err ShapeError)
            (Ok df) rest
  end.

(** [df[[cols]]]: the named columns in the order given; a name that is no
    column raises, and so does a name given twice. *)
Definition select (df : DataFrame) (cols : list string) : result DataFrame :=
  out ← mapM (column df) cols;
  if decide (NoDup cols) then Ok out else Err DuplicateError.

End Polars.

(** ** The notebook *)

Module Notebook.
Import Polars.

(** *** Cell "Format the joined dataframe" *)

Definition drop_candidates : list string :=
  ["error_message"; "status"; "width"; "height";
   "original_width"; "original_height"; "sha256";
   "hash"; "caption_right"; "id"].

Definition columns_to_drop (joined_df : DataFrame) : list string :=
  filter (fun col => col ∈ columns joined_df) drop_candidates.

Definition columns_to_rename : list (string * string) :=
  [("width_right", "image_width");
   ("height_right", "image_height");
   ("key", "image_id")].

(** The loop that collects the keys present in the frame. *)
Definition existing_keys (joined_df : DataFrame) : list string :=
  foldl (fun acc k => if decide (k ∈ columns joined_df) then acc ++ [k] else acc)
        [] (columns_to_rename.*1).

Definition drop_step (joined_df : DataFrame) : result DataFrame :=
  drop joined_df (columns_to_drop joined_df).

Definition rename_step (joined_df : DataFrame) : result DataFrame :=
  rename joined_df
    (filter (fun kv => kv.1 ∈ existing_keys joined_df) columns_to_rename).

Definition parquet_id_expr : expr :=
  Alias (Cast (StrSlice (Col "image_id") 0 5) Utf8) "parquet_id".

Definition image_path_expr : expr :=
  Alias (Add (Add (Add (Col "parquet_id") (Lit "/")) (Col "image_id")) (Lit ".jpg"))
        "image_path".

Definition aspect_ratio_expr : expr :=
  Alias (Cast (TrueDiv (Col "image_width") (Col "image_height")) Float64)
        "aspect_ratio".

(** One cell of [image_path], from the cell of [image_id]. *)
Definition image_path_of (image_id : value) : value :=
  add_value (add_value (add_value (str_slice 0 5 image_id) (VStr "/")) image_id)
            (VStr ".jpg").

Definition derive_step (joined_df : DataFrame) : result DataFrame :=
  joined_df ← with_columns joined_df [parquet_id_expr];
  joined_df ← with_columns joined_df [image_path_expr];
  with_columns joined_df [aspect_ratio_expr].

Definition format_joined (joined_df : DataFrame) : result DataFrame :=
  joined_df ← drop_step joined_df;
  joined_df ← rename_step joined_df;
  derive_step joined_df.

(** The joined frame carries the public names after [rename_step]. *)
Definition public_name (c : string) : string :=
  if decide (c = "width_right") then "image_width"
  else if decide (c = "height_right") then "image_height"
  else if decide (c = "key") then "image_id"
  else c.

Definition to_public (s : Series) : Series :=
  mkSeries (public_name (name s)) (dtype s) (values s).

(** The columns the derive step computes, from the columns it reads. *)
Definition parquet_id_series (image_id : Series) : Series :=
  mkSeries "parquet_id" Utf8 (str_slice 0 5 <$> values image_id).

Definition image_path_series (image_id : Series) : Series :=
  mkSeries "image_path" Utf8 (image_path_of <$> values image_id).

Definition aspect_ratio_series (w h : Series) : Series :=
  mkSeries "aspect_ratio" Float64 (zip_with div_value (values w) (values h)).

(** *** Cell "Read data" *)

Abbreviation bytes := (list byte).

(** What the notebook reads from outside: the local metadata folder, the
    bucket, the parquet and feather decoders, and where (if anywhere) the
    I/O of the final write fails. *)
Record World : Type := mkWorld {
  (** [Path(p).exists()] *)
  path_exists : string -> bool;
  (** [Path(folder).glob(pattern)], each path as a string *)
  path_glob : string -> string -> list string;
  (** [s3_fs.glob(pattern)]; raises when the bucket cannot be listed *)
  s3_glob : string -> result (list string);
  (** [pl.read_parquet(file)], with [storage_options] when the flag is set *)
  read_parquet : string -> bool -> result DataFrame;
  (** [pl.read_ipc] on the content of a feather file *)
  read_ipc : bytes -> result DataFrame;
  (** the serialised table, in the chunks the writer appends *)
  write_ipc : DataFrame -> list bytes;
  (** the step of the final write that raises, if any, and what it raises *)
  write_fault : option (nat * error)
}.

Definition orig_parquet_folder : string := "/ssd/datasets/pd12m/metadata".
Definition downloaded_parquet_folder : string := "s3://fc-gra-alejandria/ds/public/PD12M".

Definition read_data_cell (w : World) : result (list string * list string) :=
  if negb (path_exists w orig_parquet_folder)
  then Err (FileNotFoundError ("Folder " +:+ orig_parquet_folder +:+ " does not exist"))
  else
    let orig_parquet_files := path_glob w orig_parquet_folder "*.parquet" in
    if decide (length orig_parquet_files = 0)
    then Err (FileNotFoundError ("No parquet files found in " +:+ orig_parquet_folder))
    else
      downloaded_parquet_files ← s3_glob w (downloaded_parquet_folder +:+ "/*.parquet");
      let downloaded_parquet_files :=
        (fun file => "s3://" +:+ file) <$> downloaded_parquet_files in
      if decide (length downloaded_parquet_files = 0)
      then Err (FileNotFoundError
                  ("No parquet files found in " +:+ downloaded_parquet_folder))
      else Ok (orig_parquet_files, downloaded_parquet_files).

(** ['s3://' in parquet_file] *)
Fixpoint contains (sub s : string) : bool :=
  if String.prefix sub s then true
  else match s with
       | EmptyString => false
       | String _ s' => contains sub s'
       end.

Definition join_parquet_files_in_dataset (w : World) (parquet_files : list string)
  : result DataFrame :=
  dfs ← mapM (fun parquet_file =>
                if contains "s3://" parquet_file
                then read_parquet w parquet_file true
                else read_parquet w parquet_file false)
             parquet_files;
  concat dfs.

Definition join_cell (downloaded_df orig_df : DataFrame) : result DataFrame :=
  join_left downloaded_df orig_df "url".


End Notebook.

(** ** The Safe Writer *)

Module SafeWriter.
Import Notebook.

(** [fc_ai_pd12m.utils.safe_write_ipc] is imported by the notebook but is
    not among the sources; the writer below follows section 4.5 of the
    specification.  Its steps are numbered: step [0] creates the temporary
    file, step [i] for [1 <= i <= n] appends the [i]-th of the [n] chunks
    of the serialised table, step [n + 1] commits.  [fault = Some (k, e)]
    makes step [k] raise [e] instead of taking effect. *)
Abbreviation files := (gmap string bytes).

Definition raises (fault : option (nat * error)) (k : nat) : option error :=
  match fault with
  | Some (k', e) => if decide (k' = k) then Some e else None
  | None => None
  end.

(** Modelled from the spec: the writes to the temporary name that precede
    the commit of [safe_write_ipc] (missing from the sources).  Appends the
    chunks to the temporary file; returns the states the store goes
    through, the last state, and the error if a write raised. *)
Fixpoint write_chunks (fs : files) (tmp : string) (chunks : list bytes) (k : nat)
    (fault : option (nat * error)) : list files * files * option error :=
  match chunks with
  | [] => ([], fs, None)
  | c :: rest =>
      match raises fault k with
      | Some e => ([], fs, Some e)
      | None =>
          let fs' := alter (fun b => b ++ c) tmp fs in
          let '(trace, last, err) := write_chunks fs' tmp rest (S k) fault in
          (fs' :: trace, last, err)
      end
  end.

(** Modelled from the spec: the single atomic step of [safe_write_ipc]
    (missing from the sources), a rename locally or an overwrite after the
    complete upload on the object store: the temporary file becomes the
    destination. *)
Definition commit (fs : files) (tmp dest : string) : files :=
  match fs !! tmp with
  | Some content => <[dest := content]> (delete tmp fs)
  | None => fs
  end.

(** Modelled from the spec: [fc_ai_pd12m.utils.safe_write_ipc], missing from
    the sources.  Section 4.5: the table is written to a temporary name
    first, then committed to the destination by one atomic step; an error
    before that step leaves the destination as it was, and the temporary
    artifact is removed.  Returns the successive states of the store
    during one call, the initial state excluded, and the call's result. *)
Definition safe_write_trace (fs : files) (dest tmp : string) (payload : list bytes)
    (fault : option (nat * error)) : list files * result unit :=
  match raises fault 0 with
  | Some e => ([], Err e)
  | None =>
      let fs1 := <[tmp := []]> fs in
      let '(trace, fs2, err) := write_chunks fs1 tmp payload 1 fault in
      match err with
      | Some e => (fs1 :: trace ++ [delete tmp fs2], Err e)
      | None =>
          match raises fault (S (length payload)) with
          | Some e => (fs1 :: trace ++ [delete tmp fs2], Err e)
          | None => (fs1 :: trace ++ [commit fs2 tmp dest], Ok ())
          end
      end
  end.

(** Modelled from the spec: [fc_ai_pd12m.utils.safe_write_ipc], missing from
    the sources: the store after the call and the call's result. *)
Definition safe_write_ipc (fs : files) (dest tmp : string) (payload : list bytes)
    (fault : option (nat * error)) : files * result unit :=
  let '(trace, r) := safe_write_trace fs dest tmp payload fault in
  (List.last trace fs, r).

(** A state in which the destination is as it is in [fs]: absent, or with
    the same content. *)
Definition untouched (dest : string) (fs st : files) : Prop :=
  st !! dest = fs !! dest.

End SafeWriter.

(** ** The notebook, run from the first cell to the last *)

Module Run.
Import Polars Notebook SafeWriter.

Definition feather_path : string := "output/global_pd12m_data.feather".
Definition dest_path : string := "output/global_pd12m_data.feather".

(** The cells up to the formatted frame; an exception stops the run. *)
Definition build_table (w : World) (store : files) : result DataFrame :=
  '(orig_parquet_files, downloaded_parquet_files) ← read_data_cell w;
  orig_df ← join_parquet_files_in_dataset w orig_parquet_files;
  downloaded_df ← join_parquet_files_in_dataset w downloaded_parquet_files;
  joined_df ← join_cell downloaded_df orig_df;
  match store !! feather_path with
  | None => Err (FileNotFoundError ("File " +:+ feather_path +:+ " does not exist"))
  | Some content =>
      _ ← read_ipc w content;
      format_joined joined_df
  end.

(** The last cell catches the writer's exception and prints it.  The
    temporary name is the writer's own; here it is the destination with
    [.tmp] appended. *)
Definition run_all (w : World) (store : files) : files * result unit :=
  match build_table w store with
  | Err e => (store, Err e)
  | Ok joined_df =>
      let '(store', _) :=
        safe_write_ipc store dest_path (dest_path +:+ ".tmp")
                       (write_ipc w joined_df) (write_fault w) in
      (store', Ok ())
  end.

End Run.

(** ** The Dimension Resolver *)

Module DimensionResolver.
Import Notebook.

(** The resolver lives in [src/fc_ai_pd12m/create_global_feather.py], which
    is not among the sources; what follows is sections 4.2 and 6 of the
    specification.  The Storage Accessor's [get(key)] gives the bytes or a
    [NotFound], [Timeout] or [IOError] failure; decoding the header gives
    the dimensions or fails on a corrupt image or an unsupported format. *)
Inductive get_failure : Type := NotFound | Timeout | IOError.
Inductive decode_failure : Type := CorruptImage | UnsupportedFormat.

Inductive exn : Type :=
| FetchError (f : get_failure)
| DecodeError (d : decode_failure).

Inductive resolved : Type :=
| ok (width height : Z)
| failed (reason : string).

(** What a call does: it returns, or an exception escapes to the caller. *)
Inductive outcome (A : Type) : Type :=
| Returned (a : A)
| Raised (x : exn).
Arguments Returned {A} a.
Arguments Raised {A} x.

(** Modelled from the spec: the reason string of a failed resolution
    (the resolver is missing from the sources); the specification fixes
    [timeout] and a reason that contains [not found]. *)
Definition reason_of (x : exn) : string :=
  match x with
  | FetchError NotFound => "not found"
  | FetchError Timeout => "timeout"
  | FetchError IOError => "io error"
  | DecodeError CorruptImage => "corrupt image"
  | DecodeError UnsupportedFormat => "unsupported format"
  end.

Section Resolver.
Variable get : string -> bytes + get_failure.
Variable decode_header : bytes -> (Z * Z) + decode_failure.

(** Modelled from the spec: the fetch and the header decode of the
  Dimension Resolver (missing from the sources); either may raise. *)
Definition fetch_and_decode (ref : string) : outcome (Z * Z) :=
match get ref with
| inr f => Raised (FetchError f)
| inl data =>
    match decode_header data with
    | inr d => Raised (DecodeError d)
    | inl wh => Returned wh
    end
end.

(** Modelled from the spec: the Dimension Resolver (missing from the
  sources), which returns [ok(width, height)] or [failed(reason)] and
  converts what the fetch and the decode raise into [failed]. *)
Definition resolve (ref : string) : outcome resolved :=
match fetch_and_decode ref with
| Returned (w, h) => Returned (ok w h)
| Raised x => Returned (failed (reason_of x))
end.

(** Modelled from the spec: a batch of resolutions (the Worker Pool is
  missing from the sources); an exception out of one call would end
  it. *)
Fixpoint resolve_all (refs : list string) : outcome (list resolved) :=
match refs with
| [] => Returned []
| ref :: rest =>
    match resolve ref with
    | Raised x => Raised x
    | Returned r =>
        match resolve_all rest with
        | Raised x => Raised x
        | Returned rs => Returned (r :: rs)
        end
    end
end.
End Resolver.

End DimensionResolver.

(** ** The benchmark notebook *)

Module Benchmark.
Import Polars.

(** [notebooks/04-dv-benchmark_ovh_urls.ipynb], the cell that builds
    [target_df] from the saved table. *)
Definition ovh_prefix : string := "s3://fc-gra-alejandria/ds/public/PD12M/".

Definition ovh_url_expr : expr :=
  Alias (Add (Lit ovh_prefix) (Col "image_path")) "ovh_url".

Definition target_columns : list string :=
  ["caption"; "url"; "ovh_url"; "image_width"; "image_height"].

(** One cell of [ovh_url], from the cell of [image_path]. *)
Definition ovh_url_of (v : value) : value :=
  match v with
  | VStr image_path => VStr (ovh_prefix +:+ image_path)
  | _ => VNull
  end.

Definition target_df (df : DataFrame) : result DataFrame :=
  target_df ← with_columns df [ovh_url_expr];
  target_df ← select target_df target_columns;
  rename target_df [("url", "public_url")].

(** [measure_image_loading_time], from the sampled urls on.  [load url] is
    what one pass of the loop body observes: the seconds between the two
    readings of the clock when the image was fetched and opened, or nothing
    when the body raised (the exception is printed and the loop goes on). *)
Definition measure_loop (load : string -> option float64) (urls : list string)
  : float64 * nat :=
  foldl (fun '(total_time, successful_loads) url =>
           match load url with
           | Some elapsed => (float_add total_time elapsed, S successful_loads)
           | None => (total_time, successful_loads)
           end)
        (float_of_int 0, 0) urls.

Definition measure_image_loading_time (load : string -> option float64)
    (urls : list string) : float64 :=
  let '(total_time, successful_loads) := measure_loop load urls in
  if decide (successful_loads = 0) then S754_infinity false
  else float_div total_time (float_of_int (Z.of_nat successful_loads)).

End Benchmark.

(** ** The specification's sentences, as predicates on the notebook *)

Module Spec.
Import Polars Notebook.


(** Section 3: every row has a [status] in {ok, failed}; [ok] rows have both
    dimensions, positive; [failed] rows have neither and a non-empty
    [error_message]. *)
Definition status_invariant (out : DataFrame) : Prop :=
  forall i, i < height out ->
    exists st, cell out "status" i = Some (VStr st)
      /\ (st = "ok" \/ st = "failed")
      /\ (st = "ok" ->
            exists w h, cell out "image_width" i = Some (VInt w)
              /\ cell out "image_height" i = Some (VInt h)
              /\ (0 < w)%Z /\ (0 < h)%Z)
      /\ (st = "failed" ->
            cell out "image_width" i = Some VNull
            /\ cell out "image_height" i = Some VNull
            /\ exists m, cell out "error_message" i = Some (VStr m) /\ m <> "").

(** Section 3: [aspect_ratio] is the quotient when both dimensions are
    present, and is absent when the height is zero or a dimension is
    missing. *)
Definition aspect_ratio_guarded (out : DataFrame) : Prop :=
  forall i w h a,
    cell out "image_width" i = Some w ->
    cell out "image_height" i = Some h ->
    cell out "aspect_ratio" i = Some a ->
    (w <> VNull /\ h <> VNull /\ h <> VInt 0 -> a = div_value w h)
    /\ (w = VNull \/ h = VNull \/ h = VInt 0 -> a = VNull).




End Spec.

(** ** Sample frames *)

Module Sample.
Import Polars Notebook.

(** Three downloaded records; the second could not be downloaded. *)
Definition downloaded_df : DataFrame :=
  [ mkSeries "url" Utf8 [VStr "u1"; VStr "u2"; VStr "u3"];
    mkSeries "key" Utf8 [VStr "000010003"; VStr "000010004"; VStr "000020001"];
    mkSeries "status" Utf8 [VStr "success"; VStr "failed_to_download"; VStr "success"];
    mkSeries "error_message" Utf8 [VNull; VStr "404"; VNull];
    mkSeries "width" Int64 [VInt 10; VNull; VInt 20];
    mkSeries "height" Int64 [VInt 10; VNull; VInt 20] ].

(** The original metadata, one row per url; [u3] is not listed and the
    height recorded for [u2] is zero. *)
Definition orig_df : DataFrame :=
  [ mkSeries "id" Utf8 [VStr "a"; VStr "b"; VStr "c"];
    mkSeries "url" Utf8 [VStr "u1"; VStr "u2"; VStr "u4"];
    mkSeries "width" Int64 [VInt 100; VInt 200; VInt 200];
    mkSeries "height" Int64 [VInt 50; VInt 0; VInt 200] ].

(** The join of the two. *)
Definition joined_df : DataFrame :=
  [ mkSeries "url" Utf8 [VStr "u1"; VStr "u2"; VStr "u3"];
    mkSeries "key" Utf8 [VStr "000010003"; VStr "000010004"; VStr "000020001"];
    mkSeries "status" Utf8 [VStr "success"; VStr "failed_to_download"; VStr "success"];
    mkSeries "error_message" Utf8 [VNull; VStr "404"; VNull];
    mkSeries "width" Int64 [VInt 10; VNull; VInt 20];
    mkSeries "height" Int64 [VInt 10; VNull; VInt 20];
    mkSeries "id" Utf8 [VStr "a"; VStr "b"; VNull];
    mkSeries "width_right" Int64 [VInt 100; VInt 200; VNull];
    mkSeries "height_right" Int64 [VInt 50; VInt 0; VNull] ].

(** The table the format cell makes of it: 2.0, +infinity, null. *)
Definition final_df : DataFrame :=
  [ mkSeries "url" Utf8 [VStr "u1"; VStr "u2"; VStr "u3"];
    mkSeries "image_id" Utf8 [VStr "000010003"; VStr "000010004"; VStr "000020001"];
    mkSeries "image_width" Int64 [VInt 100; VInt 200; VNull];
    mkSeries "image_height" Int64 [VInt 50; VInt 0; VNull];
    mkSeries "parquet_id" Utf8 [VStr "00001"; VStr "00001"; VStr "00002"];
    mkSeries "image_path" Utf8
      [VStr "00001/000010003.jpg"; VStr "00001/000010004.jpg";
       VStr "00002/000020001.jpg"];
    mkSeries "aspect_ratio" Float64
      [VFloat (S754_finite false 4503599627370496 (-51));
       VFloat (S754_infinity false); VNull] ].


(** A world whose bucket lists no parquet file. *)
Definition empty_bucket : World :=
  mkWorld (fun _ => true)
          (fun _ _ => ["/ssd/datasets/pd12m/metadata/0.parquet"])
          (fun _ => Ok [])
          (fun _ _ => Ok orig_df)
          (fun _ => Ok final_df)
          (fun _ => [])
          None.

(** The original metadata in two shards, and a world with those two files
    in the metadata folder and the downloaded frame as one file in the
    bucket. *)
Definition orig_shard0 : DataFrame :=
  [ mkSeries "id" Utf8 [VStr "a"; VStr "b"];
    mkSeries "url" Utf8 [VStr "u1"; VStr "u2"];
    mkSeries "width" Int64 [VInt 100; VInt 200];
    mkSeries "height" Int64 [VInt 50; VInt 0] ].

Definition orig_shard1 : DataFrame :=
  [ mkSeries "id" Utf8 [VStr "c"];
    mkSeries "url" Utf8 [VStr "u4"];
    mkSeries "width" Int64 [VInt 200];
    mkSeries "height" Int64 [VInt 200] ].

Definition two_shards : World :=
  mkWorld (fun _ => true)
          (fun _ _ => ["/ssd/datasets/pd12m/metadata/00000.parquet";
                       "/ssd/datasets/pd12m/metadata/00001.parquet"])
          (fun _ => Ok ["fc-gra-alejandria/ds/public/PD12M/00000.parquet"])
          (fun file _ =>
             if decide (file = "/ssd/datasets/pd12m/metadata/00000.parquet")
             then Ok orig_shard0
             else if decide (file = "/ssd/datasets/pd12m/metadata/00001.parquet")
             then Ok orig_shard1
             else if decide (file = "s3://fc-gra-alejandria/ds/public/PD12M/00000.parquet")
             then Ok downloaded_df
             else Err (FileNotFoundError file))
          (fun _ => Ok final_df)
          (fun _ => [[x0a; x0b]; [x0c]])
          None.

(** A store that holds an earlier output, and a table in two chunks. *)
Definition old_store : gmap string bytes :=
  {[ "output/global_pd12m_data.feather" := [x01; x02] ]}.

Definition two_chunks : list bytes := [[x0a; x0b]; [x0c]].

(** The final table with the caption the shards carry through. *)
Definition final_df_caption : DataFrame :=
  mkSeries "caption" Utf8 [VStr "a cat"; VStr "a dog"; VStr "a bird"] :: final_df.

(** Section 8's scenario: [a1] and [b1] resolve to (100, 50) and
    (200, 200), the object of [a2] is missing. *)
Definition scenario_get (ref : string) : bytes + DimensionResolver.get_failure :=
  if decide (ref = "a1") then inl [x01]
  else if decide (ref = "b1") then inl [x02]
  else inr DimensionResolver.NotFound.

Definition scenario_decode (data : bytes)
  : (Z * Z) + DimensionResolver.decode_failure :=
  match data with
  | [x01] => inl (100, 50)%Z
  | [x02] => inl (200, 200)%Z
  | _ => inr DimensionResolver.CorruptImage
  end.

End Sample.

(** * Properties *)

Import Polars Notebook.

(** ** The error monad *)

Lemma bind_Ok {A B} (c : result A) (k : A -> result B) (b : B) :
  c ≫= k = Ok b -> exists a, c = Ok a /\ k a = Ok b.
Proof. destruct c as [a|e]; simpl; [eauto | discriminate]. Qed.

(** Opens [c ≫= k = Ok b] in hypothesis [H]: [c] returned some [x], named
    by the caller, and [H] becomes [k x = Ok b]. *)
Tactic Notation "bind_inv" hyp(H) "as" simple_intropattern(x) simple_intropattern(Hx) :=
  apply bind_Ok in H; destruct H as (x & Hx & H).

(** ** Lists *)

Lemma filter_ext_in {A} (P Q : A -> Prop)
    `{!forall x, Decision (P x), !forall x, Decision (Q x)} (l : list A) :
  (forall x, x ∈ l -> P x <-> Q x) -> filter P l = filter Q l.
Proof.
  induction l as [|a l IH]; intros Hext; [done|].
  rewrite !filter_cons.
  rewrite IH by (intros x Hx; apply Hext; by right).
  destruct (decide (P a)) as [Hp|Hp], (decide (Q a)) as [Hq|Hq]; try done.
  - exfalso. apply Hq, Hext; [by left | done].
  - exfalso. apply Hp, Hext; [by left | done].
Qed.

(** ** The drop and rename steps *)

Section DropRename.
Implicit Types df : DataFrame.

Lemma existing_keys_spec df (k : string) :
  k ∈ existing_keys df <-> k ∈ columns_to_rename.*1 /\ k ∈ columns df.
Proof.
  unfold existing_keys. simpl.
  repeat case_decide; simpl; rewrite ?elem_of_cons, ?elem_of_nil;
    intuition (subst; try done).
Qed.

Lemma rename_series_effective df (s : Series) :
  s ∈ df ->
  rename_series (filter (fun kv => kv.1 ∈ existing_keys df) columns_to_rename) s
  = to_public s.
Proof.
  intros Hs.
  assert (Hn : name s ∈ columns df) by (apply list_elem_of_fmap; eauto).
  unfold columns_to_rename.
  rewrite !filter_cons, filter_nil. simpl.
  unfold rename_series, to_public, public_name.
  destruct s as [n t vs]; simpl in *.
  repeat case_decide; simpl; repeat case_decide; simpl; subst; try done.
  all: exfalso;
    match goal with
    | H : ?k ∉ existing_keys ?d |- _ =>
        apply H; apply existing_keys_spec; split; [|done]
    end.
  all: simpl; rewrite !elem_of_cons; tauto.
Qed.

Lemma columns_to_public df :
  columns (to_public <$> df) = public_name <$> columns df.
Proof. unfold columns. rewrite <- !list_fmap_compose. reflexivity. Qed.

(** The rename step on any frame: the only exception it can raise is the
    one for two columns of one name. *)
Lemma rename_step_spec df :
  rename_step df =
    if decide (NoDup (public_name <$> columns df))
    then Ok (to_public <$> df) else Err DuplicateError.
Proof.
  unfold rename_step, rename.
  set (m := filter _ columns_to_rename).
  assert (Hnone : list_find (fun kv => kv.1 ∉ columns df) m = None).
  { apply list_find_None, Forall_forall. intros kv Hkv Hnot.
    apply list_elem_of_filter in Hkv as [Hk _].
    apply existing_keys_spec in Hk as [_ Hk]. done. }
  rewrite Hnone.
  assert (Hmap : rename_series m <$> df = to_public <$> df).
  { apply list_fmap_ext. intros i s Hs. apply rename_series_effective.
    eapply list_elem_of_lookup_2; eauto. }
  simpl. rewrite Hmap, columns_to_public. reflexivity.
Qed.

(** The drop step on any frame. *)
Lemma drop_step_spec df :
  drop_step df = Ok (filter (fun s => name s ∉ drop_candidates) df).
Proof.
  unfold drop_step, drop.
  assert (Hnone : list_find (fun c => c ∉ columns df) (columns_to_drop df) = None).
  { apply list_find_None, Forall_forall. intros c Hc Hnot.
    apply list_elem_of_filter in Hc as [Hc _]. done. }
  rewrite Hnone. f_equal.
  apply filter_ext_in. intros s Hs.
  unfold columns_to_drop. rewrite list_elem_of_filter.
  assert (name s ∈ columns df) by (apply list_elem_of_fmap; eauto).
  tauto.
Qed.

Lemma public_name_other (c : string) :
  c ∉ columns_to_rename.*1 -> public_name c = c.
Proof.
  simpl. rewrite !elem_of_cons, elem_of_nil. intros Hc.
  unfold public_name. repeat case_decide; subst; tauto.
Qed.

Lemma public_name_key (old new : string) :
  (old, new) ∈ columns_to_rename -> public_name old = new.
Proof.
  unfold columns_to_rename. rewrite !elem_of_cons, elem_of_nil.
  intros [H|[H|[H|[]]]]; inversion H; subst; reflexivity.
Qed.
End DropRename.

(** C9. After the join the columns are renamed to the public schema by
    exactly the mapping [width_right] to [image_width], [height_right] to
    [image_height] and [key] to [image_id]: the renamed frame has the same
    columns in the same order, each with its dtype and cells, a column of
    one of the three names under its public name and every other column
    under its own name. *)
Theorem rename_step_public_schema (df out : DataFrame) :
  rename_step df = Ok out ->
  length out = length df
  /\ forall i s, df !! i = Some s ->
       exists s', out !! i = Some s'
         /\ dtype s' = dtype s /\ values s' = values s
         /\ (name s = "width_right" -> name s' = "image_width")
         /\ (name s = "height_right" -> name s' = "image_height")
         /\ (name s = "key" -> name s' = "image_id")
         /\ (name s ∉ ["width_right"; "height_right"; "key"] -> name s' = name s).
Proof.
  rewrite rename_step_spec. case_decide; [|discriminate].
  intros [= <-]. split; [apply length_fmap|].
  intros i s Hs. exists (to_public s).
  rewrite list_lookup_fmap, Hs. simpl.
  repeat split.
  - intros Hn. rewrite Hn. reflexivity.
  - intros Hn. rewrite Hn. reflexivity.
  - intros Hn. rewrite Hn. reflexivity.
  - apply public_name_other.
Qed.

Lemma rename_step_public_schema_witness :
  rename_step Sample.joined_df = Ok (to_public <$> Sample.joined_df)
  /\ length (to_public <$> Sample.joined_df) = length Sample.joined_df
  /\ forall i s, Sample.joined_df !! i = Some s ->
       exists s', (to_public <$> Sample.joined_df) !! i = Some s'
         /\ dtype s' = dtype s /\ values s' = values s
         /\ (name s = "width_right" -> name s' = "image_width")
         /\ (name s = "height_right" -> name s' = "image_height")
         /\ (name s = "key" -> name s' = "image_id")
         /\ (name s ∉ ["width_right"; "height_right"; "key"] -> name s' = name s).
Proof.
  split; [vm_compute; reflexivity|].
  apply (rename_step_public_schema Sample.joined_df).
  vm_compute. reflexivity.
Defined.

Section Guarded.
Implicit Types df : DataFrame.

Lemma public_name_inj_on df (x y : string) :
  (forall new, new ∈ columns_to_rename.*2 -> new ∉ columns df) ->
  x ∈ columns df -> y ∈ columns df ->
  public_name x = public_name y -> x = y.
Proof.
  intros Hfresh Hx Hy.
  assert (H1 : "image_width" ∉ columns df)
    by (apply Hfresh; simpl; rewrite !elem_of_cons; tauto).
  assert (H2 : "image_height" ∉ columns df)
    by (apply Hfresh; simpl; rewrite !elem_of_cons; tauto).
  assert (H3 : "image_id" ∉ columns df)
    by (apply Hfresh; simpl; rewrite !elem_of_cons; tauto).
  unfold public_name.
  repeat case_decide; subst; try done; intros E; try discriminate E;
    subst; done.
Qed.

Lemma rename_step_fresh df :
  NoDup (columns df) ->
  (forall new, new ∈ columns_to_rename.*2 -> new ∉ columns df) ->
  rename_step df = Ok (to_public <$> df).
Proof.
  intros Hnd Hfresh. rewrite rename_step_spec.
  rewrite decide_True; [done|].
  apply NoDup_fmap_2_strong; [|done].
  intros x y Hx Hy. by apply (public_name_inj_on df).
Qed.

Lemma public_name_target df (old new : string) :
  (old, new) ∈ columns_to_rename -> old ∉ columns df ->
  new ∈ public_name <$> columns df -> new ∈ columns df.
Proof.
  intros Hpair Hold Hnew.
  apply list_elem_of_fmap in Hnew as (c & Hc & Hin).
  revert Hpair. unfold columns_to_rename.
  rewrite !elem_of_cons, elem_of_nil.
  revert Hc. unfold public_name.
  intros Hc [H|[H|[H|[]]]]; inversion H; subst old new; clear H;
    repeat case_decide; subst; try done; discriminate Hc.
Qed.
End Guarded.

(** C10. The drop and the rename steps are guarded by column presence: on
    every frame the drop step returns the frame without the listed columns
    it has, and the rename step never raises for a missing column; a source
    column that is absent adds no column of its public name; and on a frame
    with distinct column names, none of them a public name already, the
    rename step raises nothing. *)
Theorem drop_and_rename_guarded (df : DataFrame) :
  drop_step df = Ok (filter (fun s => name s ∉ drop_candidates) df)
  /\ (forall c, rename_step df <> Err (ColumnNotFoundError c))
  /\ (forall old new out,
        (old, new) ∈ columns_to_rename -> old ∉ columns df ->
        rename_step df = Ok out ->
        new ∈ columns out -> new ∈ columns df)
  /\ (NoDup (columns df) ->
      (forall new, new ∈ columns_to_rename.*2 -> new ∉ columns df) ->
      exists out, rename_step df = Ok out
        /\ forall old new, (old, new) ∈ columns_to_rename ->
             old ∉ columns df -> new ∉ columns out).
Proof.
  split; [apply drop_step_spec|]. split; [|split].
  - intros c. rewrite rename_step_spec. case_decide; discriminate.
  - intros old new out Hpair Hold. rewrite rename_step_spec.
    case_decide; [|discriminate]. intros [= <-].
    rewrite columns_to_public. by apply (public_name_target df old new).
  - intros Hnd Hfresh. exists (to_public <$> df).
    split; [by apply rename_step_fresh|].
    intros old new Hpair Hold Hnew.
    rewrite columns_to_public in Hnew.
    apply (public_name_target df old new Hpair Hold) in Hnew.
    apply (Hfresh new); [|done].
    apply list_elem_of_fmap. exists (old, new). done.
Qed.

(** A joined frame without [width_right]: the steps succeed and the result
    has no [image_width]. *)
Lemma drop_and_rename_guarded_witness :
  NoDup (columns Sample.downloaded_df)
  /\ (forall new, new ∈ columns_to_rename.*2 ->
                   new ∉ columns Sample.downloaded_df)
  /\ ("width_right" ∉ columns Sample.downloaded_df)
  /\ exists out, rename_step Sample.downloaded_df = Ok out
       /\ "image_width" ∉ columns out.
Proof.
  assert (Hnd : NoDup (columns Sample.downloaded_df))
    by (apply (bool_decide_unpack _); vm_compute; reflexivity).
  assert (Hfresh : forall new, new ∈ columns_to_rename.*2 ->
                               new ∉ columns Sample.downloaded_df).
  { intros new Hnew. apply (bool_decide_unpack _).
    simpl in Hnew. rewrite !elem_of_cons, elem_of_nil in Hnew.
    destruct Hnew as [->|[->|[->|[]]]]; vm_compute; reflexivity. }
  assert (Hold : "width_right" ∉ columns Sample.downloaded_df)
    by (apply (bool_decide_unpack _); vm_compute; reflexivity).
  split; [exact Hnd|]. split; [exact Hfresh|]. split; [exact Hold|].
  destruct (drop_and_rename_guarded Sample.downloaded_df) as (_ & _ & _ & H).
  destruct (H Hnd Hfresh) as (out & Hout & Hlack).
  exists out. split; [exact Hout|].
  apply (Hlack "width_right" "image_width"); [|exact Hold].
  unfold columns_to_rename. left.
Defined.

(** ** The left join *)

Section JoinIndices.
Implicit Types lk rk : list value.









End JoinIndices.

Section Join.
Implicit Types left right : DataFrame.

Lemma get_column_Some df c s :
  get_column df c = Some s -> s ∈ df /\ name s = c.
Proof.
  unfold get_column. destruct (list_find _ df) as [[i s']|] eqn:E; [|done].
  intros [= <-]. apply list_find_Some in E as (Hi & Hn & _).
  split; [by eapply list_elem_of_lookup_2 | done].
Qed.

Lemma column_Ok df c s : column df c = Ok s <-> get_column df c = Some s.
Proof.
  unfold column. destruct (get_column df c); split; intros [=]; by subst.
Qed.

Lemma columns_join_rows left right on lk rk :
  columns (join_rows left right on lk rk) = join_columns left right on.
Proof.
  unfold join_rows, join_columns, columns.
  rewrite fmap_app, <- !list_fmap_compose. f_equal.
  apply list_fmap_ext. intros i s _. simpl.
  unfold suffix_right. simpl. by case_decide.
Qed.

Lemma join_left_inv left right on out :
  join_left left right on = Ok out ->
  exists lk rk, get_column left on = Some lk /\ get_column right on = Some rk
    /\ dtype lk = dtype rk /\ out = join_rows left right on lk rk.
Proof.
  unfold join_left. intros H.
  bind_inv H as lk Hlk.
  bind_inv H as rk Hrk.
  apply column_Ok in Hlk, Hrk.
  case_decide; [|discriminate]. case_decide; [|discriminate].
  injection H as <-. by exists lk, rk.
Qed.

Lemma join_left_schema left right on lk rk :
  get_column left on = Some lk -> get_column right on = Some rk ->
  dtype lk = dtype rk -> NoDup (join_columns left right on) ->
  join_left left right on = Ok (join_rows left right on lk rk).
Proof.
  intros Hlk Hrk Ht Hnd. unfold join_left.
  apply column_Ok in Hlk, Hrk. rewrite Hlk, Hrk. simpl.
  rewrite decide_True by done. simpl.
  rewrite decide_True; [done|]. by rewrite columns_join_rows.
Qed.


Lemma rect_height n df : rect n df -> df <> [] -> height df = n.
Proof. destruct df as [|s df]; [done|]. intros H _. by inversion H. Qed.


End Join.

(** ** Columns added by [with_columns] *)

Section WithColumns.
Implicit Types df : DataFrame.

Lemma get_column_cons s df c :
  get_column (s :: df) c = if decide (name s = c) then Some s else get_column df c.
Proof.
  unfold get_column. csimpl. case_decide; [done|].
  by destruct (list_find _ df) as [[i x]|].
Qed.

Lemma get_column_None df c : get_column df c = None <-> c ∉ columns df.
Proof.
  induction df as [|s df IH]; [split; [intros _; apply not_elem_of_nil | done]|].
  rewrite get_column_cons. unfold columns. csimpl. rewrite not_elem_of_cons.
  case_decide; [split; [done | intros [? _]; congruence]|].
  rewrite IH. unfold columns. split; [split; [congruence | done] | tauto].
Qed.

Lemma get_column_is_Some df c : is_Some (get_column df c) <-> c ∈ columns df.
Proof.
  rewrite <- not_eq_None_Some, get_column_None.
  split; [apply dec_stable | tauto].
Qed.

Lemma get_column_replace df s c :
  get_column ((fun x => if decide (name x = name s) then s else x) <$> df) c
  = if decide (c = name s)
    then (if decide (name s ∈ columns df) then Some s else None)
    else get_column df c.
Proof.
  induction df as [|x df IH].
  { simpl. by case_decide. }
  csimpl. rewrite !get_column_cons, IH. unfold columns. csimpl.
  destruct (decide (name x = name s)) as [Hx|Hx].
  - destruct (decide (c = name s)) as [->|Hc].
    + rewrite !decide_True; [done | rewrite Hx; left | done].
    + rewrite !decide_False by congruence. done.
  - destruct (decide (c = name s)) as [->|Hc].
    + rewrite decide_False by done.
      destruct (decide (name s ∈ name <$> df)) as [Hin|Hin].
      * rewrite decide_True; [done | by right].
      * rewrite decide_False; [done|]. rewrite not_elem_of_cons. split; congruence.
    + done.
Qed.

Lemma get_column_app_fresh df s c :
  name s ∉ columns df ->
  get_column (df ++ [s]) c
  = if decide (c = name s) then Some s else get_column df c.
Proof.
  intros Hs. induction df as [|x df IH].
  - simpl. rewrite get_column_cons.
    destruct (decide (c = name s)) as [->|]; [by rewrite decide_True|].
    rewrite decide_False by congruence. done.
  - unfold columns in Hs. csimpl in Hs. apply not_elem_of_cons in Hs as [Hx Hs].
    simpl. rewrite !get_column_cons, (IH Hs).
    destruct (decide (c = name s)) as [->|]; [|done].
    rewrite decide_False by congruence. done.
Qed.

(** The frame after [with_column]: the new column under its name, every
    other column as it was. *)
Lemma get_column_with_column df s c :
  get_column (with_column df s) c
  = if decide (c = name s) then Some s else get_column df c.
Proof.
  unfold with_column. destruct (decide (name s ∈ columns df)) as [Hin|Hin].
  - rewrite get_column_replace. by rewrite (decide_True _ _ Hin).
  - by apply get_column_app_fresh.
Qed.

Lemma columns_with_column df s c :
  c ∈ columns (with_column df s) <-> c ∈ columns df \/ c = name s.
Proof.
  rewrite <- !get_column_is_Some, get_column_with_column.
  case_decide as Hc; subst; split; eauto.
  - intros [Hin|Heq]; [done | congruence].
Qed.

Lemma rect_with_column n df s :
  rect n df -> length (values s) = n -> rect n (with_column df s).
Proof.
  unfold rect, with_column. intros Hdf Hs. case_decide.
  - apply Forall_fmap. eapply Forall_impl; [exact Hdf|].
    intros x Hx. simpl. by case_decide.
  - apply Forall_app. split; [done | by apply Forall_singleton].
Qed.

Lemma with_column_nonempty df s : with_column df s <> [].
Proof.
  unfold with_column. case_decide as Hin.
  - destruct df; [by apply elem_of_nil in Hin | done].
  - by destruct df.
Qed.

Lemma with_columns_single df e out :
  with_columns df [e] = Ok out <->
  exists s, eval df e = Ok s /\ out = with_column df s.
Proof.
  unfold with_columns. simpl.
  destruct (eval df e) as [s|err]; simpl.
  - split; [intros [= <-]; eauto | intros (s' & [= <-] & ->); done].
  - split; [done | intros (s' & [=] & _)].
Qed.

Lemma eval_length n df e s :
  rect n df -> height df = n -> eval df e = Ok s -> length (values s) = n.
Proof.
  intros Hrect Hh. revert s.
  induction e as [c|lit|e IH off len|e IH t|e1 IH1 e2 IH2|e1 IH1 e2 IH2|e IH nm];
    intros s; simpl.
  - intros Hc. apply column_Ok, get_column_Some in Hc as [Hin _].
    by apply (proj1 (Forall_forall _ _) Hrect).
  - intros [= <-]. simpl. by rewrite length_replicate.
  - intros H. bind_inv H as a Ha.
    case_decide; [|discriminate]. injection H as <-. simpl.
    rewrite length_fmap. by apply IH.
  - intros H. bind_inv H as a Ha.
    unfold cast_series in H. case_decide; [injection H as <-; by apply IH|].
    destruct (dtype a), t; try discriminate.
    injection H as <-. simpl. rewrite length_fmap. by apply IH.
  - intros H. bind_inv H as a Ha.
    bind_inv H as b Hb.
    bind_inv H as t Ht. injection H as <-. simpl.
    rewrite length_zip_with, (IH1 _ Ha), (IH2 _ Hb). lia.
  - intros H. bind_inv H as a Ha.
    bind_inv H as b Hb.
    bind_inv H as t Ht. injection H as <-. simpl.
    rewrite length_zip_with, (IH1 _ Ha), (IH2 _ Hb). lia.
  - intros H. bind_inv H as a Ha. injection H as <-.
    simpl. by apply IH.
Qed.

Lemma with_columns_rect n df e out :
  rect n df -> df <> [] -> with_columns df [e] = Ok out ->
  rect n out /\ out <> [].
Proof.
  intros Hrect Hne H. apply with_columns_single in H as (s & Hs & ->).
  split; [|apply with_column_nonempty].
  apply rect_with_column; [done|].
  apply (eval_length n df e); [done | by apply rect_height | done].
Qed.
End WithColumns.

(** ** The format cell *)

Section Format.
Implicit Types df out : DataFrame.

Lemma eval_parquet_id df s :
  eval df parquet_id_expr = Ok s <->
  exists idc, get_column df "image_id" = Some idc /\ dtype idc = Utf8
              /\ s = parquet_id_series idc.
Proof.
  unfold parquet_id_expr, parquet_id_series. simpl. unfold column.
  destruct (get_column df "image_id") as [idc|]; simpl.
  - destruct (decide (dtype idc = Utf8)) as [Ht|Ht]; simpl.
    + unfold cast_series. simpl.
      split; [intros [= <-]; eauto | intros (? & [= <-] & _ & ->); done].
    + split; [done | intros (? & [= <-] & ? & _); done].
  - split; [done | intros (? & [=] & _)].
Qed.

Lemma image_path_values (vs : list value) :
  zip_with add_value
    (zip_with add_value
       (zip_with add_value (str_slice 0 5 <$> vs)
                 (replicate (length vs) (VStr "/")))
       vs)
    (replicate (length vs) (VStr ".jpg"))
  = image_path_of <$> vs.
Proof.
  rewrite (zip_with_replicate_r_eq _ (length vs) (VStr "/"))
    by (by rewrite length_fmap).
  rewrite <- list_fmap_compose, zip_with_fmap_l, zip_with_diag.
  rewrite (zip_with_replicate_r_eq _ (length vs) (VStr ".jpg"))
    by (by rewrite length_fmap).
  rewrite <- list_fmap_compose. reflexivity.
Qed.

Lemma eval_image_path n df idc :
  rect n df -> get_column df "image_id" = Some idc -> dtype idc = Utf8 ->
  eval (with_column df (parquet_id_series idc)) image_path_expr
  = Ok (image_path_series idc).
Proof.
  intros Hrect Hid Ht.
  assert (Hlen : length (values idc) = n).
  { apply get_column_Some in Hid as [Hin _].
    by apply (proj1 (Forall_forall _ _) Hrect). }
  assert (Hh : height (with_column df (parquet_id_series idc)) = n).
  { apply rect_height; [|apply with_column_nonempty].
    apply rect_with_column; [done|]. simpl. by rewrite length_fmap. }
  unfold image_path_expr. simpl. unfold column.
  rewrite !get_column_with_column. simpl.
  rewrite Hid. simpl. rewrite Ht. simpl.
  rewrite Hh, <- Hlen, image_path_values. reflexivity.
Qed.

Lemma eval_aspect_ratio df s :
  eval df aspect_ratio_expr = Ok s <->
  exists w h, get_column df "image_width" = Some w
    /\ get_column df "image_height" = Some h
    /\ dtype w <> Utf8 /\ dtype h <> Utf8
    /\ s = aspect_ratio_series w h.
Proof.
  unfold aspect_ratio_expr, aspect_ratio_series. simpl. unfold column.
  destruct (get_column df "image_width") as [w|]; simpl;
    [|split; [done | intros (? & ? & [=] & _)]].
  destruct (get_column df "image_height") as [h|]; simpl;
    [|split; [done | intros (? & ? & _ & [=] & _)]].
  destruct (dtype w) eqn:Hw, (dtype h) eqn:Hh; simpl; unfold cast_series; simpl.
  all: split;
    [ intros [= <-] || intros [=]; exists w, h; rewrite Hw, Hh; done
    | intros (w' & h' & [= <-] & [= <-] & Hw' & Hh' & ->);
      rewrite ?Hw, ?Hh in *; done ].
Qed.

(** The three derived columns, on a frame whose columns have one length. *)
Lemma derive_step_inv n df out :
  rect n df -> derive_step df = Ok out ->
  exists idc w h,
    get_column df "image_id" = Some idc /\ dtype idc = Utf8
    /\ get_column df "image_width" = Some w
    /\ get_column df "image_height" = Some h
    /\ dtype w <> Utf8 /\ dtype h <> Utf8
    /\ out = with_column
               (with_column (with_column df (parquet_id_series idc))
                            (image_path_series idc))
               (aspect_ratio_series w h).
Proof.
  intros Hrect H. unfold derive_step in H.
  bind_inv H as df3 H3.
  bind_inv H as df4 H4.
  apply with_columns_single in H3 as (pid & Hpid & ->).
  apply eval_parquet_id in Hpid as (idc & Hid & Ht & ->).
  apply with_columns_single in H4 as (ip & Hip & ->).
  rewrite (eval_image_path n df idc Hrect Hid Ht) in Hip. injection Hip as <-.
  apply with_columns_single in H as (ar & Har & ->).
  apply eval_aspect_ratio in Har as (w & h & Hw & Hh & Htw & Hth & ->).
  rewrite !get_column_with_column in Hw, Hh. simpl in Hw, Hh.
  exists idc, w, h. done.
Qed.

Lemma rect_public n df :
  rect n df -> rect n (to_public <$> filter (fun s => name s ∉ drop_candidates) df).
Proof.
  unfold rect. rewrite !Forall_forall. intros H s Hs.
  apply list_elem_of_fmap in Hs as (x & -> & Hx).
  apply list_elem_of_filter in Hx as [_ Hx]. simpl. by apply H.
Qed.

Lemma format_joined_inv n df out :
  rect n df -> format_joined df = Ok out ->
  exists idc w h,
    let df2 := to_public <$> filter (fun s => name s ∉ drop_candidates) df in
    NoDup (columns df2)
    /\ get_column df2 "image_id" = Some idc /\ dtype idc = Utf8
    /\ get_column df2 "image_width" = Some w
    /\ get_column df2 "image_height" = Some h
    /\ dtype w <> Utf8 /\ dtype h <> Utf8
    /\ out = with_column
               (with_column (with_column df2 (parquet_id_series idc))
                            (image_path_series idc))
               (aspect_ratio_series w h).
Proof.
  intros Hrect H. unfold format_joined in H.
  rewrite drop_step_spec in H. simpl in H.
  rewrite rename_step_spec in H.
  case_decide as Hnd; [|discriminate]. simpl in H.
  apply (derive_step_inv n) in H; [|by apply rect_public].
  destruct H as (idc & w & h & H). exists idc, w, h. simpl.
  split; [by rewrite columns_to_public | exact H].
Qed.

Lemma format_joined_height n df out :
  rect n df -> format_joined df = Ok out -> height out = n.
Proof.
  intros Hrect H.
  destruct (format_joined_inv n df out Hrect H)
    as (idc & w & h & _ & Hid & _ & Hw & Hh & _ & _ & ->).
  pose proof (rect_public n df Hrect) as Hr2.
  assert (Hlen : forall c s,
    get_column (to_public <$> filter (fun s => name s ∉ drop_candidates) df) c
    = Some s -> length (values s) = n).
  { intros c s Hs. apply get_column_Some in Hs as [Hin _].
    by apply (proj1 (Forall_forall _ _) Hr2). }
  apply rect_height; [|apply with_column_nonempty].
  repeat apply rect_with_column; try done; simpl.
  - rewrite length_fmap. by apply (Hlen "image_id").
  - rewrite length_fmap. by apply (Hlen "image_id").
  - rewrite length_zip_with, (Hlen _ _ Hw), (Hlen _ _ Hh). lia.
Qed.

Lemma get_column_unique df s :
  NoDup (columns df) -> s ∈ df -> get_column df (name s) = Some s.
Proof.
  induction df as [|x df IH]; [intros _ H; by apply elem_of_nil in H|].
  unfold columns. csimpl. intros Hnd Hin.
  apply NoDup_cons in Hnd as [Hx Hnd].
  rewrite get_column_cons. apply elem_of_cons in Hin as [->|Hin].
  - by rewrite decide_True.
  - rewrite decide_False; [by apply IH|].
    intros Heq. apply Hx. rewrite Heq. by apply list_elem_of_fmap_2.
Qed.

(** A column of the joined frame that is not dropped is in the renamed
    frame under its public name. *)
Lemma get_column_public df c s :
  NoDup (public_name <$> columns (filter (fun s => name s ∉ drop_candidates) df)) ->
  get_column df c = Some s -> c ∉ drop_candidates ->
  get_column (to_public <$> filter (fun s => name s ∉ drop_candidates) df)
             (public_name c)
  = Some (to_public s).
Proof.
  intros Hnd Hs Hc. apply get_column_Some in Hs as [Hin <-].
  apply (get_column_unique _ (to_public s)).
  - by rewrite columns_to_public.
  - apply list_elem_of_fmap_2, list_elem_of_filter. done.
Qed.
End Format.

(** ** The final table *)

Section FinalTable.
Implicit Types df out : DataFrame.

Lemma wf_rect df : wf df -> rect (height df) df.
Proof. by intros (_ & H & _). Qed.

Lemma cell_lookup df c s i :
  get_column df c = Some s -> cell df c i = values s !! i.
Proof. unfold cell. by intros ->. Qed.



Lemma div_value_null (t1 t2 : DType) (a b : value) :
  t1 <> Utf8 -> t2 <> Utf8 -> has_dtype t1 a -> has_dtype t2 b ->
  div_value a b = VNull <-> a = VNull \/ b = VNull.
Proof.
  intros H1 H2 Ha Hb.
  destruct a, b, t1, t2; simpl in *; try done;
    split; try discriminate; try tauto; intros [|]; discriminate.
Qed.

(** Division by a zero height is defined: the quotient is infinite, or
    not a number. *)
Lemma float_div_zero (f : float64) :
  float_div f (float_of_int 0) = S754_nan
  \/ exists s, float_div f (float_of_int 0) = S754_infinity s.
Proof. destruct f as [s|s| |s m e]; simpl; eauto. Qed.

Lemma not_in_drop_candidates_public (c : string) :
  c ∈ drop_candidates -> forall x, public_name x = c -> x = c.
Proof.
  unfold drop_candidates. rewrite !elem_of_cons, elem_of_nil.
  intros Hc x. unfold public_name.
  repeat case_decide; try done; intros <-; exfalso;
    repeat destruct Hc as [Hc|Hc]; try discriminate Hc; done.
Qed.

Lemma dropped_not_public df (c : string) :
  c ∈ drop_candidates ->
  c ∉ columns (to_public <$> filter (fun s => name s ∉ drop_candidates) df).
Proof.
  intros Hc Hin. rewrite columns_to_public in Hin.
  apply list_elem_of_fmap in Hin as (x & Hx & Hin).
  symmetry in Hx. apply (not_in_drop_candidates_public c Hc) in Hx. subst x.
  apply list_elem_of_fmap in Hin as (s & -> & Hs).
  apply list_elem_of_filter in Hs as [Hs _]. done.
Qed.
End FinalTable.



(** C5, as the specification words it, fails: the sample's second record
    has height zero and its [aspect_ratio] is computed (+infinity), not
    absent. *)
Lemma aspect_ratio_guarded_fails :
  format_joined Sample.joined_df = Ok Sample.final_df
  /\ ~ Spec.aspect_ratio_guarded Sample.final_df.
Proof.
  split; [vm_compute; reflexivity|].
  intros Hclaim.
  destruct (Hclaim 1 (VInt 200) (VInt 0) (VFloat (S754_infinity false)))
    as [_ Habsent]; try (vm_compute; reflexivity).
  discriminate Habsent. right. right. reflexivity.
Qed.

(** C5, amended.  For every record of the final table [aspect_ratio] is
    the float64 quotient [image_width / image_height], computed whenever
    both dimensions are present, a zero height included (the quotient is
    then infinite or not a number); it is absent exactly when a dimension
    is absent. *)
Theorem aspect_ratio_quotient (df out : DataFrame) :
  wf df -> format_joined df = Ok out ->
  forall i, i < height out ->
    exists a b, cell out "image_width" i = Some a
      /\ cell out "image_height" i = Some b
      /\ cell out "aspect_ratio" i = Some (div_value a b)
      /\ (div_value a b = VNull <-> a = VNull \/ b = VNull)
      /\ (forall x y, a = VInt x -> b = VInt y ->
            div_value a b
            = VFloat (float_div (float_of_int x) (float_of_int y)))
      /\ (forall x, a = VInt x -> b = VInt 0 ->
            exists q, div_value a b = VFloat q
              /\ (q = S754_nan \/ exists s, q = S754_infinity s)).
Proof.
  intros Hwf H i Hi. pose proof (wf_rect _ Hwf) as Hrect.
  rewrite (format_joined_height _ _ _ Hrect H) in Hi.
  destruct (format_joined_inv _ _ _ Hrect H)
    as (idc & w & h & _ & _ & _ & Hw & Hh & Htw & Hth & ->).
  assert (Hcol : forall c s,
    get_column (to_public <$> filter (fun s => name s ∉ drop_candidates) df) c
    = Some s ->
    length (values s) = height df /\ Forall (has_dtype (dtype s)) (values s)).
  { intros c s Hs. apply get_column_Some in Hs as [Hin _].
    apply list_elem_of_fmap in Hin as (x & -> & Hx).
    apply list_elem_of_filter in Hx as [_ Hx]. simpl.
    destruct Hwf as (_ & Hr & Ht).
    split; [by apply (proj1 (Forall_forall _ _) Hr)
           | by apply (proj1 (Forall_forall _ _) Ht)]. }
  destruct (Hcol _ _ Hw) as [Hlw Htyw]. destruct (Hcol _ _ Hh) as [Hlh Htyh].
  destruct (lookup_lt_is_Some_2 (values w) i) as [a Ha]; [lia|].
  destruct (lookup_lt_is_Some_2 (values h) i) as [b Hb]; [lia|].
  exists a, b. unfold cell.
  rewrite !get_column_with_column. simpl. rewrite Hw, Hh. simpl.
  split; [done|]. split; [done|]. split; [|split; [|split]].
  - rewrite lookup_zip_with, Ha, Hb. reflexivity.
  - apply (div_value_null (dtype w) (dtype h)); try done.
    + by apply (proj1 (Forall_forall _ _) Htyw), list_elem_of_lookup_2 with i.
    + by apply (proj1 (Forall_forall _ _) Htyh), list_elem_of_lookup_2 with i.
  - intros x y -> ->. reflexivity.
  - intros x -> ->. eexists. split; [reflexivity|]. apply float_div_zero.
Qed.

Lemma aspect_ratio_quotient_witness :
  wf Sample.joined_df
  /\ format_joined Sample.joined_df = Ok Sample.final_df
  /\ cell Sample.final_df "image_height" 1 = Some (VInt 0)
  /\ cell Sample.final_df "aspect_ratio" 1 = Some (VFloat (S754_infinity false))
  /\ exists a b, cell Sample.final_df "image_width" 1 = Some a
       /\ cell Sample.final_df "image_height" 1 = Some b
       /\ cell Sample.final_df "aspect_ratio" 1 = Some (div_value a b)
       /\ (div_value a b = VNull <-> a = VNull \/ b = VNull)
       /\ (forall x y, a = VInt x -> b = VInt y ->
             div_value a b
             = VFloat (float_div (float_of_int x) (float_of_int y)))
       /\ (forall x, a = VInt x -> b = VInt 0 ->
             exists q, div_value a b = VFloat q
               /\ (q = S754_nan \/ exists s, q = S754_infinity s)).
Proof.
  assert (Hwf : wf Sample.joined_df)
    by (apply (bool_decide_unpack _); vm_compute; reflexivity).
  assert (Hf : format_joined Sample.joined_df = Ok Sample.final_df)
    by (vm_compute; reflexivity).
  split; [exact Hwf|]. split; [exact Hf|].
  split; [vm_compute; reflexivity|]. split; [vm_compute; reflexivity|].
  apply (aspect_ratio_quotient Sample.joined_df Sample.final_df Hwf Hf 1).
  vm_compute. lia.
Defined.

(** C4, as the specification words it, fails: the sample's final table has
    no [status] column at all. *)
Lemma status_invariant_fails :
  format_joined Sample.joined_df = Ok Sample.final_df
  /\ ~ Spec.status_invariant Sample.final_df.
Proof.
  split; [vm_compute; reflexivity|].
  intros Hclaim. destruct (Hclaim 0) as (st & Hst & _); [vm_compute; lia|].
  vm_compute in Hst. discriminate Hst.
Qed.

(** C4, amended.  No row of the final table carries a [status] or an
    [error_message] field: the format cell drops both columns and adds
    neither; [image_width] and [image_height] are the join's [width_right]
    and [height_right] columns, cell for cell. *)
Theorem final_table_has_no_status (df out : DataFrame) :
  wf df -> format_joined df = Ok out ->
  ("status" ∉ columns out)
  /\ ("error_message" ∉ columns out)
  /\ (forall s, get_column df "width_right" = Some s ->
        get_column out "image_width"
        = Some (mkSeries "image_width" (dtype s) (values s)))
  /\ (forall s, get_column df "height_right" = Some s ->
        get_column out "image_height"
        = Some (mkSeries "image_height" (dtype s) (values s))).
Proof.
  intros Hwf H. apply wf_rect in Hwf.
  destruct (format_joined_inv _ _ _ Hwf H)
    as (idc & w & h & Hnd & _ & _ & _ & _ & _ & _ & ->).
  rewrite columns_to_public in Hnd.
  assert (Hdropped : forall c, c ∈ drop_candidates ->
    c <> "parquet_id" -> c <> "image_path" -> c <> "aspect_ratio" ->
    c ∉ columns
          (with_column
             (with_column
                (with_column
                   (to_public <$> filter (fun s => name s ∉ drop_candidates) df)
                   (parquet_id_series idc))
                (image_path_series idc))
             (aspect_ratio_series w h))).
  { intros c Hc H1 H2 H3. rewrite !columns_with_column. simpl.
    pose proof (dropped_not_public df c Hc). tauto. }
  split; [|split; [|split]].
  - apply Hdropped; [|done..].
    unfold drop_candidates. rewrite !elem_of_cons. tauto.
  - apply Hdropped; [|done..].
    unfold drop_candidates. rewrite !elem_of_cons. tauto.
  - intros s Hs. rewrite !get_column_with_column. simpl.
    assert (Hkeep : "width_right" ∉ drop_candidates).
    { unfold drop_candidates. rewrite !elem_of_cons, elem_of_nil.
      intros Hc. repeat destruct Hc as [Hc|Hc]; try discriminate Hc; done. }
    pose proof (get_column_public df "width_right" s Hnd Hs Hkeep) as Hp.
    apply get_column_Some in Hs as [_ Hn].
    unfold to_public in Hp. rewrite Hn in Hp. exact Hp.
  - intros s Hs. rewrite !get_column_with_column. simpl.
    assert (Hkeep : "height_right" ∉ drop_candidates).
    { unfold drop_candidates. rewrite !elem_of_cons, elem_of_nil.
      intros Hc. repeat destruct Hc as [Hc|Hc]; try discriminate Hc; done. }
    pose proof (get_column_public df "height_right" s Hnd Hs Hkeep) as Hp.
    apply get_column_Some in Hs as [_ Hn].
    unfold to_public in Hp. rewrite Hn in Hp. exact Hp.
Qed.

Lemma final_table_has_no_status_witness :
  wf Sample.joined_df
  /\ format_joined Sample.joined_df = Ok Sample.final_df
  /\ ("status" ∈ columns Sample.joined_df)
  /\ ("status" ∉ columns Sample.final_df)
  /\ ("error_message" ∉ columns Sample.final_df)
  /\ (forall s, get_column Sample.joined_df "width_right" = Some s ->
        get_column Sample.final_df "image_width"
        = Some (mkSeries "image_width" (dtype s) (values s)))
  /\ (forall s, get_column Sample.joined_df "height_right" = Some s ->
        get_column Sample.final_df "image_height"
        = Some (mkSeries "image_height" (dtype s) (values s))).
Proof.
  assert (Hwf : wf Sample.joined_df)
    by (apply (bool_decide_unpack _); vm_compute; reflexivity).
  assert (Hf : format_joined Sample.joined_df = Ok Sample.final_df)
    by (vm_compute; reflexivity).
  split; [exact Hwf|]. split; [exact Hf|].
  split; [apply (bool_decide_unpack _); vm_compute; reflexivity|].
  apply (final_table_has_no_status Sample.joined_df Sample.final_df Hwf Hf).
Defined.

(** ** Row counts of the join *)

Section RowCount.
Implicit Types dl og : DataFrame.



End RowCount.







(** ** Enumeration *)

Import SafeWriter Run.

(** C8. When the metadata folder does not exist or holds no parquet file,
    or the bucket cannot be listed or lists no parquet file, the "Read
    data" cell raises (a [FileNotFoundError] in the cases the notebook
    tests itself), the run stops there and the store of output files is
    left as it was. *)
Theorem enumeration_failure_is_fatal (w : World) (store : files) :
  path_exists w orig_parquet_folder = false
  \/ path_glob w orig_parquet_folder "*.parquet" = []
  \/ s3_glob w (downloaded_parquet_folder +:+ "/*.parquet") = Ok []
  \/ (exists e, s3_glob w (downloaded_parquet_folder +:+ "/*.parquet") = Err e) ->
  exists e, read_data_cell w = Err e
    /\ run_all w store = (store, Err e)
    /\ ((forall e', s3_glob w (downloaded_parquet_folder +:+ "/*.parquet") <> Err e')
        -> exists msg, e = FileNotFoundError msg).
Proof.
  intros Hfail.
  assert (Hcell : exists e, read_data_cell w = Err e
    /\ ((forall e', s3_glob w (downloaded_parquet_folder +:+ "/*.parquet") <> Err e')
        -> exists msg, e = FileNotFoundError msg)).
  { unfold read_data_cell.
    destruct (path_exists w orig_parquet_folder) eqn:Hex; simpl; [|by eauto].
    destruct (decide (length (path_glob w orig_parquet_folder "*.parquet") = 0))
      as [Hlen|Hlen]; [by eauto|].
    destruct Hfail as [Hf|[Hf|[Hf|[e Hf]]]].
    - discriminate Hf.
    - rewrite Hf in Hlen. done.
    - rewrite Hf. simpl. eauto.
    - rewrite Hf. simpl. exists e. split; [done|]. intros Hno. by destruct (Hno e). }
  destruct Hcell as (e & Hcell & Hkind). exists e.
  split; [exact Hcell|]. split; [|exact Hkind].
  unfold run_all, build_table. rewrite Hcell. reflexivity.
Qed.

Lemma enumeration_failure_is_fatal_witness :
  exists e, read_data_cell Sample.empty_bucket = Err e
    /\ run_all Sample.empty_bucket Sample.old_store = (Sample.old_store, Err e)
    /\ ((forall e', s3_glob Sample.empty_bucket
                      (downloaded_parquet_folder +:+ "/*.parquet") <> Err e')
        -> exists msg, e = FileNotFoundError msg).
Proof.
  apply (enumeration_failure_is_fatal Sample.empty_bucket Sample.old_store).
  right. right. left. reflexivity.
Defined.

(** ** The Safe Writer *)

Section Writer.
Variables (dest tmp : string).
Hypothesis tmp_dest : tmp <> dest.
Implicit Types fs : files.

Lemma write_chunks_untouched fs chunks k fault trace last err :
  write_chunks fs tmp chunks k fault = (trace, last, err) ->
  Forall (untouched dest fs) trace /\ untouched dest fs last.
Proof.
  revert fs k trace last err.
  induction chunks as [|c rest IH]; intros fs k trace last err; simpl.
  - intros [= <- <- <-]. by split.
  - destruct (raises fault k) as [e|]; [intros [= <- <- <-]; by split|].
    destruct (write_chunks _ tmp rest (S k) fault) as [[tr la] er] eqn:E.
    intros [= <- <- <-]. apply IH in E as [Htr Hla].
    assert (Hstep : untouched dest fs (alter (fun b => b ++ c) tmp fs)).
    { unfold untouched. by rewrite lookup_alter_ne. }
    unfold untouched in *. split.
    + constructor; [done|]. eapply Forall_impl; [exact Htr|].
      intros st Hst. simpl in Hst. congruence.
    + congruence.
Qed.

(** Without a fault in range every chunk is appended. *)
Lemma write_chunks_complete fs chunks k fault content :
  (forall j, k <= j < k + length chunks -> raises fault j = None) ->
  fs !! tmp = Some content ->
  exists trace last,
    write_chunks fs tmp chunks k fault = (trace, last, None)
    /\ last !! tmp = Some (content ++ mjoin chunks).
Proof.
  revert fs k content.
  induction chunks as [|c rest IH]; intros fs k content Hno Htmp; simpl.
  - exists [], fs. by rewrite app_nil_r.
  - rewrite (Hno k) by (simpl; lia).
    destruct (IH (alter (fun b => b ++ c) tmp fs) (S k) (content ++ c))
      as (trace & last & E & Hlast).
    + intros j Hj. apply Hno. simpl. lia.
    + by rewrite lookup_alter_eq, Htmp.
    + rewrite E. eexists _, _. split; [done|].
      by rewrite Hlast, <- app_assoc.
Qed.

(** A fault at one of the chunk writes is the error returned. *)
Lemma write_chunks_fault fs chunks k j e :
  k <= j < k + length chunks ->
  exists trace last,
    write_chunks fs tmp chunks k (Some (j, e)) = (trace, last, Some e).
Proof.
  revert fs k. induction chunks as [|c rest IH]; intros fs k Hj; simpl in *.
  - lia.
  - destruct (decide (j = k)) as [->|Hne]; [eauto|].
    destruct (IH (alter (fun b => b ++ c) tmp fs) (S k)) as (tr & la & E); [lia|].
    rewrite E. eauto.
Qed.

Lemma last_snoc_default (l : list files) (x d : files) :
  List.last (l ++ [x]) d = x.
Proof. induction l as [|y [|z l] IH]; done. Qed.

Lemma last_cons_snoc (y : files) (l : list files) (x d : files) :
  List.last (y :: l ++ [x]) d = x.
Proof. apply (last_snoc_default (y :: l)). Qed.
End Writer.

(** C2. If an error occurs at any step up to and including the commit, the
    call returns that error, the destination is untouched in every state
    the store goes through and in the final one (absent, or with its
    previous content, never a partial file), and the temporary file is
    gone. *)
Theorem safe_write_error_leaves_destination
    (fs : files) (dest tmp : string) (payload : list bytes) (k : nat) (e : error) :
  tmp <> dest -> fs !! tmp = None -> k <= S (length payload) ->
  exists trace,
    safe_write_trace fs dest tmp payload (Some (k, e)) = (trace, Err e)
    /\ safe_write_ipc fs dest tmp payload (Some (k, e)) = (List.last trace fs, Err e)
    /\ Forall (untouched dest fs) trace
    /\ List.last trace fs !! dest = fs !! dest
    /\ List.last trace fs !! tmp = None.
Proof.
  intros Hne Hfresh Hk.
  assert (Hgoal : exists trace,
    safe_write_trace fs dest tmp payload (Some (k, e)) = (trace, Err e)
    /\ Forall (untouched dest fs) trace
    /\ List.last trace fs !! dest = fs !! dest
    /\ List.last trace fs !! tmp = None).
  { unfold safe_write_trace. simpl.
    destruct (decide (k = 0)) as [->|Hk0]; [exists []; by repeat split|].
    assert (H1 : untouched dest fs (<[tmp:=[]]> fs))
      by (unfold untouched; by rewrite lookup_insert_ne).
    assert (Hcleanup : forall tr fs2,
      Forall (untouched dest (<[tmp:=[]]> fs)) tr ->
      untouched dest (<[tmp:=[]]> fs) fs2 ->
      Forall (untouched dest fs) (<[tmp:=[]]> fs :: tr ++ [delete tmp fs2])
      /\ List.last (<[tmp:=[]]> fs :: tr ++ [delete tmp fs2]) fs !! dest = fs !! dest
      /\ List.last (<[tmp:=[]]> fs :: tr ++ [delete tmp fs2]) fs !! tmp = None).
    { intros tr fs2 Htr Hfs2.
      assert (Hdel : untouched dest fs (delete tmp fs2)).
      { unfold untouched in *. rewrite lookup_delete_ne by done. congruence. }
      rewrite last_cons_snoc.
      split; [|split; [exact Hdel | apply lookup_delete_eq]].
      constructor; [done|]. apply Forall_app. split; [|by constructor].
      eapply Forall_impl; [exact Htr|]. unfold untouched in *. intros st Hst.
      simpl in Hst. congruence. }
    destruct (decide (k <= length payload)) as [Hin|Hout].
    - destruct (write_chunks_fault tmp (<[tmp:=[]]> fs) payload 1 k e)
        as (tr & fs2 & E); [lia|].
      rewrite E. eexists. split; [reflexivity|].
      apply (write_chunks_untouched dest tmp Hne) in E as [Htr Hfs2].
      by apply Hcleanup.
    - assert (k = S (length payload)) as -> by lia.
      destruct (write_chunks_complete tmp (<[tmp:=[]]> fs) payload 1
                  (Some (S (length payload), e)) [])
        as (tr & fs2 & E & _).
      + intros j Hj. simpl. rewrite decide_False by lia. done.
      + apply lookup_insert_eq.
      + rewrite E. rewrite decide_True by done. eexists. split; [reflexivity|].
        apply (write_chunks_untouched dest tmp Hne) in E as [Htr Hfs2].
        by apply Hcleanup. }
  destruct Hgoal as (trace & Htrace & Hall & Hdest & Htmp).
  exists trace. split; [exact Htrace|]. split; [|by repeat split].
  unfold safe_write_ipc. by rewrite Htrace.
Qed.

(** The first chunk is written, the second write fails: the earlier output
    is still there and the temporary file is not. *)
Lemma safe_write_error_leaves_destination_witness :
  exists trace,
    safe_write_trace Sample.old_store Run.dest_path (Run.dest_path +:+ ".tmp")
                     Sample.two_chunks (Some (2, OSError "disk full"))
    = (trace, Err (OSError "disk full"))
    /\ safe_write_ipc Sample.old_store Run.dest_path (Run.dest_path +:+ ".tmp")
                      Sample.two_chunks (Some (2, OSError "disk full"))
       = (List.last trace Sample.old_store, Err (OSError "disk full"))
    /\ Forall (untouched Run.dest_path Sample.old_store) trace
    /\ List.last trace Sample.old_store !! Run.dest_path
       = Sample.old_store !! Run.dest_path
    /\ List.last trace Sample.old_store !! (Run.dest_path +:+ ".tmp") = None.
Proof.
  apply (safe_write_error_leaves_destination
           Sample.old_store Run.dest_path (Run.dest_path +:+ ".tmp")
           Sample.two_chunks 2 (OSError "disk full")).
  - vm_compute. discriminate.
  - vm_compute. reflexivity.
  - vm_compute. lia.
Defined.

(** Without a fault the last step installs the whole table, and until then
    the destination is untouched. *)
Lemma safe_write_commits (fs : files) (dest tmp : string) (payload : list bytes) :
  tmp <> dest ->
  exists before final,
    safe_write_trace fs dest tmp payload None = (before ++ [final], Ok ())
    /\ Forall (untouched dest fs) before
    /\ final !! dest = Some (mjoin payload)
    /\ final !! tmp = None.
Proof.
  intros Hne. unfold safe_write_trace. simpl.
  destruct (write_chunks_complete tmp (<[tmp:=[]]> fs) payload 1 None [])
    as (tr & fs2 & E & Hcontent); [done | apply lookup_insert_eq |].
  rewrite E. exists (<[tmp:=[]]> fs :: tr), (commit fs2 tmp dest).
  apply (write_chunks_untouched dest tmp Hne) in E as [Htr Hfs2].
  assert (H1 : untouched dest fs (<[tmp:=[]]> fs))
    by (unfold untouched; by rewrite lookup_insert_ne).
  split; [done|]. split; [|split].
  - constructor; [done|]. eapply Forall_impl; [exact Htr|].
    unfold untouched in *. intros st Hst. simpl in Hst. congruence.
  - unfold commit. rewrite Hcontent. simpl. apply lookup_insert_eq.
  - unfold commit. rewrite Hcontent.
    rewrite lookup_insert_ne by done. apply lookup_delete_eq.
Qed.

(** ** The Dimension Resolver *)

Section ResolverFacts.
Import DimensionResolver.
Variable get : string -> bytes + get_failure.
Variable decode_header : bytes -> (Z * Z) + decode_failure.

Lemma reason_of_nonempty (x : exn) : reason_of x <> "".
Proof. destruct x as [[]|[]]; discriminate. Qed.

Lemma resolve_returns (ref : string) :
  exists r, resolve get decode_header ref = Returned r
    /\ match fetch_and_decode get decode_header ref with
       | Returned (w, h) => r = ok w h
       | Raised x => r = failed (reason_of x)
       end.
Proof.
  unfold resolve.
  destruct (fetch_and_decode get decode_header ref) as [[w h]|x]; eauto.
Qed.
End ResolverFacts.

(** C3. For every image reference the resolver returns a value tagged
    [ok(width, height)] or [failed(reason)] and raises nothing: what the
    fetch or the decode raises (timeout, missing object, corrupt image,
    unsupported format) becomes [failed] with a non-empty reason; and a
    batch returns one result per reference. *)
Theorem resolver_never_raises
    (get : string -> bytes + DimensionResolver.get_failure)
    (decode_header : bytes -> (Z * Z) + DimensionResolver.decode_failure)
    (refs : list string) :
  (forall ref, exists r,
      DimensionResolver.resolve get decode_header ref = DimensionResolver.Returned r
      /\ match r with
         | DimensionResolver.ok _ _ => True
         | DimensionResolver.failed reason => reason <> ""
         end
      /\ forall x,
           DimensionResolver.fetch_and_decode get decode_header ref
           = DimensionResolver.Raised x ->
           r = DimensionResolver.failed (DimensionResolver.reason_of x))
  /\ exists rs,
       DimensionResolver.resolve_all get decode_header refs
       = DimensionResolver.Returned rs
       /\ length rs = length refs.
Proof.
  split.
  - intros ref. destruct (resolve_returns get decode_header ref) as (r & Hr & Hcase).
    exists r. split; [exact Hr|].
    destruct (DimensionResolver.fetch_and_decode get decode_header ref)
      as [[w h]|x]; subst r.
    + split; [done | discriminate].
    + split; [apply reason_of_nonempty | by intros ? [= <-]].
  - induction refs as [|ref rest (rs & IH & Hlen)]; simpl; [by exists []|].
    destruct (resolve_returns get decode_header ref) as (r & Hr & _).
    rewrite Hr, IH. exists (r :: rs). simpl. by rewrite Hlen.
Qed.

Lemma resolver_never_raises_witness :
  DimensionResolver.resolve_all Sample.scenario_get Sample.scenario_decode
                                ["a1"; "a2"; "b1"]
  = DimensionResolver.Returned
      [DimensionResolver.ok 100 50; DimensionResolver.failed "not found";
       DimensionResolver.ok 200 200]
  /\ exists rs,
       DimensionResolver.resolve_all Sample.scenario_get Sample.scenario_decode
                                     ["a1"; "a2"; "b1"]
       = DimensionResolver.Returned rs
       /\ length rs = length ["a1"; "a2"; "b1"].
Proof.
  split; [vm_compute; reflexivity|].
  apply (resolver_never_raises Sample.scenario_get Sample.scenario_decode
           ["a1"; "a2"; "b1"]).
Defined.

(** * Further properties of the notebooks *)

(** ** Reading the shards *)

Section Reading.
Variable w : World.

Lemma mapM_Ok {A B} (f : A -> result B) (l : list A) (k : list B) :
mapM f l = Ok k <-> Forall2 (fun x y => f x = Ok y) l k.
Proof.
revert k. induction l as [|x l IH]; intros k; simpl.
- split; [intros [= <-]; constructor | by inversion 1].
- split.
  + intros H. bind_inv H as y Hy. bind_inv H as k' Hk'. injection H as <-.
    constructor; [done | by apply IH].
  + inversion 1 as [|? y ? k' Hy Hk']; subst.
    rewrite Hy. simpl. apply IH in Hk'. rewrite Hk'. reflexivity.
Qed.

Lemma mapM_Err {A B} (f : A -> result B) (pre post : list A) (x : A) (e : error) :
Forall (fun y => exists b, f y = Ok b) pre -> f x = Err e ->
mapM f (pre ++ x :: post) = Err e.
Proof.
intros Hpre Hx. induction Hpre as [|y pre [b Hy] _ IH]; simpl.
- by rewrite Hx.
- rewrite Hy. simpl. by rewrite IH.
Qed.

Lemma mapM_ext {A B} (f g : A -> result B) (l : list A) :
Forall (fun x => f x = g x) l -> mapM f l = mapM g l.
Proof.
induction 1 as [|x l Hx _ IH]; [done|]. simpl. by rewrite Hx, IH.
Qed.

Lemma contains_prefix (sub s : string) : contains sub (sub +:+ s) = true.
Proof.
assert (Hp : String.prefix sub (sub +:+ s) = true).
{ induction sub as [|a sub IH]; [by destruct s|].
  change (String a sub +:+ s) with (String a (sub +:+ s)). simpl.
  destruct (ascii_dec a a); [exact IH | done]. }
revert Hp. generalize (sub +:+ s). intros t Hp.
destruct t; cbn [contains]; by rewrite Hp.
Qed.

(** The branch on ['s3://' in parquet_file] passes the test's outcome. *)
Lemma read_branch (file : string) :
(if contains "s3://" file then read_parquet w file true
 else read_parquet w file false)
= read_parquet w file (contains "s3://" file).
Proof. by destruct (contains "s3://" file). Qed.

Lemma schema_vstack (a b : DataFrame) :
schema a = schema b -> schema (vstack a b) = schema a.
Proof.
revert b. induction a as [|s a IH]; intros [|t b]; simpl; try done.
intros [= Hn Ht Hs]. f_equal. by apply IH.
Qed.

Lemma lookup_vstack (a b : DataFrame) (j : nat) :
schema a = schema b ->
values <$> vstack a b !! j
= (fun s => values s ++ from_option values [] (b !! j)) <$> a !! j.
Proof.
revert b j. induction a as [|s a IH]; intros [|t b] j; simpl; try done.
intros [= Hn Ht Hs]. destruct j as [|j]; simpl; [done | by apply IH].
Qed.

(** Stacking the frames that follow [acc], one after the other. *)
Lemma concat_from (acc : DataFrame) (rest : list DataFrame) :
Forall (fun d => schema d = schema acc) rest ->
exists out,
  foldl (fun acc d =>
           acc ← acc;
           if decide (schema acc = schema d) then Ok (vstack acc d)
           else Err ShapeError)
        (Ok acc) rest = Ok out
  /\ schema out = schema acc
  /\ forall j,
       values <$> out !! j
       = (fun s => values s
                   ++ mjoin ((fun d => from_option values [] (d !! j)) <$> rest))
           <$> acc !! j.
Proof.
revert acc. induction rest as [|d rest IH]; intros acc Hall.
- exists acc. split; [done|]. split; [done|]. intros j. simpl.
  destruct (acc !! j); simpl; [by rewrite app_nil_r | done].
- apply Forall_cons in Hall as [Hd Hrest]. simpl.
  rewrite decide_True by done.
  destruct (IH (vstack acc d)) as (out & Hout & Hs & Hv).
  { eapply Forall_impl; [exact Hrest|]. intros x Hx. simpl in Hx.
    by rewrite schema_vstack. }
  exists out. split; [exact Hout|].
  split; [by rewrite Hs, schema_vstack|].
  intros j. rewrite Hv. simpl.
  pose proof (lookup_vstack acc d j (eq_sym Hd)) as Hl.
  destruct (vstack acc d !! j) as [s|] eqn:E, (acc !! j) as [s'|] eqn:E';
    simpl in *; try done.
  injection Hl as ->. by rewrite <- app_assoc.
Qed.
End Reading.

(** X1. When every listed file reads to a frame and the frames have one
    schema, [join_parquet_files_in_dataset] returns a frame of that schema
    in which every column is the column of the first file followed by the
    same column of the next files, in the order of the list. *)
Theorem join_parquet_files_stacks_in_order
    (w : World) (files : list string) (d0 : DataFrame) (rest : list DataFrame) :
  Forall2 (fun file d => read_parquet w file (contains "s3://" file) = Ok d)
          files (d0 :: rest) ->
  Forall (fun d => schema d = schema d0) rest ->
  exists out,
    join_parquet_files_in_dataset w files = Ok out
    /\ schema out = schema d0
    /\ forall j s0, d0 !! j = Some s0 ->
         exists s, out !! j = Some s
           /\ values s
              = values s0
                ++ mjoin ((fun d => from_option values [] (d !! j)) <$> rest).
Proof.
  intros Hread Hschema.
  destruct (concat_from d0 rest Hschema) as (out & Hout & Hs & Hv).
  exists out. split; [|split; [exact Hs|]].
  - unfold join_parquet_files_in_dataset.
    assert (Hm : mapM (fun parquet_file =>
                         if contains "s3://" parquet_file
                         then read_parquet w parquet_file true
                         else read_parquet w parquet_file false) files
                 = Ok (d0 :: rest)).
    { apply mapM_Ok. eapply Forall2_impl; [exact Hread|].
      intros f d Hf. by rewrite read_branch. }
    rewrite Hm. exact Hout.
  - intros j s0 Hj. specialize (Hv j). rewrite Hj in Hv. simpl in Hv.
    destruct (out !! j) as [s|]; [|done]. exists s. split; [done|].
    by injection Hv.
Qed.

Lemma join_parquet_files_stacks_in_order_witness :
  join_parquet_files_in_dataset Sample.two_shards
    ["/ssd/datasets/pd12m/metadata/00000.parquet";
     "/ssd/datasets/pd12m/metadata/00001.parquet"]
  = Ok Sample.orig_df
  /\ exists out,
       join_parquet_files_in_dataset Sample.two_shards
         ["/ssd/datasets/pd12m/metadata/00000.parquet";
          "/ssd/datasets/pd12m/metadata/00001.parquet"]
       = Ok out
       /\ schema out = schema Sample.orig_shard0
       /\ forall j s0, Sample.orig_shard0 !! j = Some s0 ->
            exists s, out !! j = Some s
              /\ values s
                 = values s0
                   ++ mjoin ((fun d => from_option values [] (d !! j))
                               <$> [Sample.orig_shard1]).
Proof.
  split; [vm_compute; reflexivity|].
  apply (join_parquet_files_stacks_in_order Sample.two_shards
           ["/ssd/datasets/pd12m/metadata/00000.parquet";
            "/ssd/datasets/pd12m/metadata/00001.parquet"]
           Sample.orig_shard0 [Sample.orig_shard1]).
  - repeat constructor.
  - repeat constructor.
Defined.

(** X2. The first file whose read raises makes
    [join_parquet_files_in_dataset] raise that exception: no frame is
    returned from the files that did read. *)
Theorem join_parquet_files_first_error
    (w : World) (pre post : list string) (file : string) (e : error) :
  Forall (fun f => exists d, read_parquet w f (contains "s3://" f) = Ok d) pre ->
  read_parquet w file (contains "s3://" file) = Err e ->
  join_parquet_files_in_dataset w (pre ++ file :: post) = Err e.
Proof.
  intros Hpre Hfile. unfold join_parquet_files_in_dataset.
  rewrite (mapM_Err _ pre post file e); [done | | by rewrite read_branch].
  eapply Forall_impl; [exact Hpre|]. intros f [d Hd]. exists d.
  by rewrite read_branch.
Qed.

Lemma join_parquet_files_first_error_witness :
  join_parquet_files_in_dataset Sample.two_shards
    (["/ssd/datasets/pd12m/metadata/00000.parquet"]
     ++ "/ssd/datasets/pd12m/metadata/00002.parquet"
     :: ["/ssd/datasets/pd12m/metadata/00001.parquet"])
  = Err (FileNotFoundError "/ssd/datasets/pd12m/metadata/00002.parquet").
Proof.
  apply (join_parquet_files_first_error Sample.two_shards
           ["/ssd/datasets/pd12m/metadata/00000.parquet"]
           ["/ssd/datasets/pd12m/metadata/00001.parquet"]
           "/ssd/datasets/pd12m/metadata/00002.parquet").
  - constructor; [|constructor]. eexists. vm_compute. reflexivity.
  - vm_compute. reflexivity.
Defined.

(** ** The "Read data" cell and the run *)

(** When the "Read data" cell returns, and what. *)
Lemma read_data_cell_spec
    (w : World) (orig_files downloaded_files : list string) :
  read_data_cell w = Ok (orig_files, downloaded_files)
  <-> path_exists w orig_parquet_folder = true
      /\ orig_files = path_glob w orig_parquet_folder "*.parquet"
      /\ orig_files <> []
      /\ exists listed,
           s3_glob w (downloaded_parquet_folder +:+ "/*.parquet") = Ok listed
           /\ listed <> []
           /\ downloaded_files = (fun file => "s3://" +:+ file) <$> listed.
Proof.
  unfold read_data_cell.
  destruct (path_exists w orig_parquet_folder); simpl;
    [|split; [done | intros [[=] _]]].
  destruct (decide (length (path_glob w orig_parquet_folder "*.parquet") = 0))
    as [Hlen|Hlen].
  { split; [done|]. intros (_ & -> & Hne & _).
    by apply nil_length_inv in Hlen. }
  destruct (s3_glob w (downloaded_parquet_folder +:+ "/*.parquet"))
    as [listed|e]; simpl; [|split; [done | intros (_ & _ & _ & l & [=] & _)]].
  destruct (decide (length ((fun file => "s3://" +:+ file) <$> listed) = 0))
    as [Hl|Hl].
  - split; [done|]. intros (_ & _ & _ & l & [= <-] & Hne & _).
    rewrite length_fmap in Hl. by apply nil_length_inv in Hl.
  - split.
    + intros [= <- <-]. split; [done|]. split; [done|].
      split; [by intros Heq; rewrite Heq in Hlen|].
      exists listed. split; [done|]. split; [|done].
      intros ->. done.
    + intros (_ & -> & _ & l & [= <-] & _ & ->). done.
Qed.

(** X3. The "Read data" cell returns exactly when the metadata folder
    exists and holds a parquet file and the bucket lists a parquet file; it
    then returns the folder's listing as it is and the bucket's listing
    with [s3://] put before every path, neither list empty. *)
Theorem read_data_cell_returns
    (w : World) (orig_files downloaded_files : list string) :
  read_data_cell w = Ok (orig_files, downloaded_files)
  <-> path_exists w orig_parquet_folder = true
      /\ orig_files = path_glob w orig_parquet_folder "*.parquet"
      /\ orig_files <> []
      /\ exists listed,
           s3_glob w (downloaded_parquet_folder +:+ "/*.parquet") = Ok listed
           /\ listed <> []
           /\ downloaded_files = (fun file => "s3://" +:+ file) <$> listed.
Proof. apply read_data_cell_spec. Qed.

Lemma read_data_cell_returns_witness :
  read_data_cell Sample.two_shards
  = Ok (["/ssd/datasets/pd12m/metadata/00000.parquet";
         "/ssd/datasets/pd12m/metadata/00001.parquet"],
        ["s3://fc-gra-alejandria/ds/public/PD12M/00000.parquet"]).
Proof.
  apply (read_data_cell_returns Sample.two_shards).
  split; [reflexivity|]. split; [reflexivity|]. split; [discriminate|].
  exists ["fc-gra-alejandria/ds/public/PD12M/00000.parquet"].
  split; [reflexivity|]. split; [discriminate | reflexivity].
Defined.

(** X4. Every file the "Read data" cell lists from the bucket is read with
    the storage options: its path begins with [s3://], so
    [join_parquet_files_in_dataset] takes the first branch for it. *)
Theorem downloaded_files_read_with_storage_options
    (w : World) (orig_files downloaded_files : list string) :
  read_data_cell w = Ok (orig_files, downloaded_files) ->
  join_parquet_files_in_dataset w downloaded_files
  = (dfs ← mapM (fun file => read_parquet w file true) downloaded_files;
     concat dfs).
Proof.
  intros H. apply read_data_cell_spec in H as (_ & _ & _ & l & _ & _ & ->).
  unfold join_parquet_files_in_dataset. f_equal.
  apply mapM_ext, Forall_fmap, Forall_forall. intros file _.
  unfold compose. cbv beta. by rewrite contains_prefix.
Qed.

Lemma downloaded_files_read_with_storage_options_witness :
  join_parquet_files_in_dataset Sample.two_shards
    ["s3://fc-gra-alejandria/ds/public/PD12M/00000.parquet"]
  = (dfs ← mapM (fun file => read_parquet Sample.two_shards file true)
               ["s3://fc-gra-alejandria/ds/public/PD12M/00000.parquet"];
     concat dfs).
Proof.
  apply (downloaded_files_read_with_storage_options Sample.two_shards
           ["/ssd/datasets/pd12m/metadata/00000.parquet";
            "/ssd/datasets/pd12m/metadata/00001.parquet"]).
  reflexivity.
Defined.

(** X5. The format cell needs the feather file to be there already: on a
    store without it the run raises and writes nothing, and when the cells
    before it succeed the exception is the cell's own
    [FileNotFoundError]. *)
Theorem run_needs_existing_feather (w : World) (store : files) :
  store !! feather_path = None ->
  (exists e, run_all w store = (store, Err e))
  /\ forall orig_files downloaded_files orig_df downloaded_df joined_df,
       read_data_cell w = Ok (orig_files, downloaded_files) ->
       join_parquet_files_in_dataset w orig_files = Ok orig_df ->
       join_parquet_files_in_dataset w downloaded_files = Ok downloaded_df ->
       join_cell downloaded_df orig_df = Ok joined_df ->
       run_all w store
       = (store,
          Err (FileNotFoundError ("File " +:+ feather_path +:+ " does not exist"))).
Proof.
  intros Hnone. split.
  - unfold run_all.
    destruct (build_table w store) as [out|e] eqn:E; [|by eauto].
    exfalso. unfold build_table in E.
    bind_inv E as fl Hfl. destruct fl as [o d]. simpl in E.
    bind_inv E as odf Ho. bind_inv E as ddf Hd. bind_inv E as j Hj.
    rewrite Hnone in E. discriminate E.
  - intros o d odf ddf j Hcell Ho Hd Hj.
    unfold run_all, build_table.
    rewrite Hcell. simpl. rewrite Ho. simpl. rewrite Hd. simpl.
    rewrite Hj. simpl. rewrite Hnone. reflexivity.
Qed.

Lemma run_needs_existing_feather_witness :
  run_all Sample.two_shards ∅
  = (∅, Err (FileNotFoundError ("File " +:+ feather_path +:+ " does not exist"))).
Proof.
  destruct (run_needs_existing_feather Sample.two_shards ∅) as [_ H];
    [reflexivity|].
  apply (H ["/ssd/datasets/pd12m/metadata/00000.parquet";
            "/ssd/datasets/pd12m/metadata/00001.parquet"]
           ["s3://fc-gra-alejandria/ds/public/PD12M/00000.parquet"]
           Sample.orig_df Sample.downloaded_df Sample.joined_df);
    vm_compute; reflexivity.
Defined.

(** ** More on the format cell *)

Section FormatMore.
Implicit Types df out : DataFrame.

Lemma filter_all {A} (P : A -> Prop) `{!forall x, Decision (P x)} (l : list A) :
Forall P l -> filter P l = l.
Proof.
induction 1 as [|x l Hx _ IH]; [done|]. by rewrite filter_cons_True, IH.
Qed.

Lemma columns_replace df s :
columns ((fun c => if decide (name c = name s) then s else c) <$> df) = columns df.
Proof.
unfold columns. rewrite <- list_fmap_compose. apply list_fmap_ext.
intros i c _. simpl. by case_decide.
Qed.

Lemma NoDup_with_column df s :
NoDup (columns df) -> NoDup (columns (with_column df s)).
Proof.
intros Hnd. unfold with_column. case_decide as Hin.
- by rewrite columns_replace.
- unfold columns. rewrite fmap_app. apply NoDup_app. split; [done|].
  split; [|apply NoDup_singleton].
  intros c Hc Hs. apply list_elem_of_singleton in Hs. simpl in Hs. by subst.
Qed.

(** Adding a column the frame already has, under its name, changes
  nothing. *)
Lemma with_column_same df s :
NoDup (columns df) -> get_column df (name s) = Some s -> with_column df s = df.
Proof.
intros Hnd Hs. unfold with_column.
rewrite decide_True by (apply get_column_is_Some; by eexists).
rewrite <- (list_fmap_id df) at 2. apply list_fmap_ext. intros i c Hc. simpl.
case_decide as Hn; [|done].
assert (Hin : c ∈ df) by (by eapply list_elem_of_lookup_2).
pose proof (get_column_unique df c Hnd Hin) as Hc'.
rewrite Hn, Hs in Hc'. by injection Hc'.
Qed.

(** The three derived columns, computed forward. *)
Lemma derive_step_fwd n df idc w h :
rect n df ->
get_column df "image_id" = Some idc -> dtype idc = Utf8 ->
get_column df "image_width" = Some w ->
get_column df "image_height" = Some h ->
dtype w <> Utf8 -> dtype h <> Utf8 ->
derive_step df
= Ok (with_column
        (with_column (with_column df (parquet_id_series idc))
                     (image_path_series idc))
        (aspect_ratio_series w h)).
Proof.
intros Hrect Hid Ht Hw Hh Htw Hth. unfold derive_step.
assert (H1 : with_columns df [parquet_id_expr]
             = Ok (with_column df (parquet_id_series idc))).
{ apply with_columns_single. exists (parquet_id_series idc).
  split; [|done]. apply eval_parquet_id. by exists idc. }
rewrite H1. simpl.
assert (H2 : with_columns (with_column df (parquet_id_series idc)) [image_path_expr]
             = Ok (with_column (with_column df (parquet_id_series idc))
                               (image_path_series idc))).
{ apply with_columns_single. exists (image_path_series idc).
  split; [|done]. by apply (eval_image_path n). }
rewrite H2. simpl.
apply with_columns_single. exists (aspect_ratio_series w h).
split; [|done]. apply eval_aspect_ratio. exists w, h.
rewrite !get_column_with_column. simpl. done.
Qed.

Lemma public_name_not_key (c : string) :
public_name c ∉ columns_to_rename.*1.
Proof.
simpl. rewrite !elem_of_cons, elem_of_nil. unfold public_name.
repeat case_decide; subst; intros [Hk|[Hk|[Hk|[]]]]; try discriminate Hk; done.
Qed.

Lemma public_name_idem (c : string) : public_name (public_name c) = public_name c.
Proof. apply public_name_other, public_name_not_key. Qed.
End FormatMore.

(** A column that is neither dropped, nor renamed, nor derived. *)
Lemma get_column_passthrough (df out : DataFrame) (c : string) (s : Series) :
  wf df -> format_joined df = Ok out ->
  get_column df c = Some s ->
  c ∉ drop_candidates ->
  c ∉ ["width_right"; "height_right"; "key"] ->
  c ∉ ["parquet_id"; "image_path"; "aspect_ratio"] ->
  get_column out c = Some s.
Proof.
  intros Hwf H Hs Hdrop Hkey Hnew. apply wf_rect in Hwf.
  destruct (format_joined_inv _ _ _ Hwf H)
    as (idc & w & h & Hnd & _ & _ & _ & _ & _ & _ & ->).
  rewrite columns_to_public in Hnd.
  rewrite !elem_of_cons, elem_of_nil in Hnew.
  rewrite !get_column_with_column. simpl.
  rewrite !decide_False by tauto.
  pose proof (get_column_public df c s Hnd Hs Hdrop) as Hp.
  assert (Hc : public_name c = c) by (by apply public_name_other).
  apply get_column_Some in Hs as [_ Hn].
  rewrite Hc in Hp. rewrite Hp. f_equal.
  unfold to_public. rewrite Hn, Hc. destruct s; simpl in *. by subst.
Qed.

(** X6. The format cell carries every other column through unchanged: a
    column of the joined frame that is neither dropped, nor renamed, nor
    one of the three derived names is in the final table with its name,
    dtype and cells. *)
Theorem passthrough_columns_unchanged (df out : DataFrame) (c : string) (s : Series) :
  wf df -> format_joined df = Ok out ->
  get_column df c = Some s ->
  c ∉ drop_candidates ->
  c ∉ ["width_right"; "height_right"; "key"] ->
  c ∉ ["parquet_id"; "image_path"; "aspect_ratio"] ->
  get_column out c = Some s.
Proof. apply get_column_passthrough. Qed.

Lemma passthrough_columns_unchanged_witness :
  get_column Sample.final_df "url"
  = Some (mkSeries "url" Utf8 [VStr "u1"; VStr "u2"; VStr "u3"]).
Proof.
  apply (passthrough_columns_unchanged Sample.joined_df Sample.final_df "url").
  - apply (bool_decide_unpack _). vm_compute. reflexivity.
  - vm_compute. reflexivity.
  - vm_compute. reflexivity.
  - apply (bool_decide_unpack _). vm_compute. reflexivity.
  - apply (bool_decide_unpack _). vm_compute. reflexivity.
  - apply (bool_decide_unpack _). vm_compute. reflexivity.
Defined.

(** X7. Without a [key] column (and with no [image_id] column either) the
    format cell raises [ColumnNotFoundError] for [image_id]: the guarded
    drop and rename pass, the first derived column does not. *)
Theorem format_needs_key (df : DataFrame) :
  NoDup (columns df) ->
  (forall new, new ∈ columns_to_rename.*2 -> new ∉ columns df) ->
  "key" ∉ columns df ->
  format_joined df = Err (ColumnNotFoundError "image_id").
Proof.
  intros Hnd Hfresh Hkey. unfold format_joined.
  rewrite drop_step_spec. simpl.
  set (df1 := filter (fun s => name s ∉ drop_candidates) df).
  assert (Hsub : forall c, c ∈ columns df1 -> c ∈ columns df).
  { intros c Hc. apply list_elem_of_fmap in Hc as (s & -> & Hs).
    apply list_elem_of_filter in Hs as [_ Hs]. by apply list_elem_of_fmap_2. }
  assert (Hnd1 : NoDup (columns df1)).
  { unfold columns, df1. apply NoDup_fmap_2_strong.
    - intros x y Hx Hy Hxy.
      apply list_elem_of_filter in Hx as [_ Hx].
      apply list_elem_of_filter in Hy as [_ Hy].
      pose proof (get_column_unique df x Hnd Hx) as Gx.
      pose proof (get_column_unique df y Hnd Hy) as Gy.
      rewrite Hxy, Gy in Gx. by injection Gx.
    - apply NoDup_filter.
      apply (NoDup_fmap_1 name). exact Hnd. }
  rewrite (rename_step_fresh df1 Hnd1) by (intros new Hn Hc; by apply (Hfresh new Hn), Hsub).
  simpl. unfold derive_step, with_columns. simpl. unfold column.
  assert (Hnone : get_column (to_public <$> df1) "image_id" = None).
  { apply get_column_None. rewrite columns_to_public. intros Hin.
    apply list_elem_of_fmap in Hin as (c & Hc & Hin). apply Hsub in Hin.
    assert (Hid : "image_id" ∉ columns df)
      by (apply Hfresh; simpl; rewrite !elem_of_cons; tauto).
    revert Hc. unfold public_name.
    repeat case_decide; subst; intros Hc; try discriminate Hc; subst; done. }
  rewrite Hnone. reflexivity.
Qed.

Lemma format_needs_key_witness :
  format_joined Sample.orig_df = Err (ColumnNotFoundError "image_id").
Proof.
  apply (format_needs_key Sample.orig_df).
  - apply (bool_decide_unpack _). vm_compute. reflexivity.
  - intros new Hnew. apply (bool_decide_unpack _).
    simpl in Hnew. rewrite !elem_of_cons, elem_of_nil in Hnew.
    destruct Hnew as [->|[->|[->|[]]]]; vm_compute; reflexivity.
  - apply (bool_decide_unpack _). vm_compute. reflexivity.
Defined.

(** X8. Running the format cell again on its own output changes nothing:
    nothing is left to drop or to rename, and the three derived columns are
    recomputed to the same cells in the same places. *)
Theorem format_joined_idempotent (df out : DataFrame) :
  wf df -> format_joined df = Ok out -> format_joined out = Ok out.
Proof.
  intros Hwf H. apply wf_rect in Hwf.
  destruct (format_joined_inv _ _ _ Hwf H)
    as (idc & w & h & Hnd & Hid & Ht & Hw & Hh & Htw & Hth & Hout).
  set (df2 := to_public <$> filter (fun s => name s ∉ drop_candidates) df) in *.
  simpl in Hnd.
  assert (Hr2 : rect (height df) df2) by (by apply rect_public).
  assert (Hlen : forall c s, get_column df2 c = Some s ->
                             length (values s) = height df).
  { intros c s Hs. apply get_column_Some in Hs as [Hin _].
    by apply (proj1 (Forall_forall _ _) Hr2). }
  assert (Hrect : rect (height df) out).
  { subst out. repeat apply rect_with_column; try done; simpl.
    - rewrite length_fmap. by apply (Hlen "image_id").
    - rewrite length_fmap. by apply (Hlen "image_id").
    - rewrite length_zip_with, (Hlen _ _ Hw), (Hlen _ _ Hh). lia. }
  assert (Hndout : NoDup (columns out)).
  { subst out. by repeat apply NoDup_with_column. }
  assert (Hcols : forall c, c ∈ columns out ->
            c ∈ columns df2 \/ c ∈ ["parquet_id"; "image_path"; "aspect_ratio"]).
  { intros c. subst out. rewrite !columns_with_column. simpl.
    rewrite !elem_of_cons. tauto. }
  assert (Hkeep : forall c, c ∈ columns out ->
            (c ∉ drop_candidates) /\ public_name c = c).
  { intros c Hc. apply Hcols in Hc as [Hc|Hc].
    - split.
      + intros Hd. by apply (dropped_not_public df c Hd).
      + unfold df2 in Hc. rewrite columns_to_public in Hc.
        apply list_elem_of_fmap in Hc as (x & -> & _). apply public_name_idem.
    - rewrite !elem_of_cons, elem_of_nil in Hc.
      destruct Hc as [->|[->|[->|[]]]];
        (split; [apply (bool_decide_unpack _); vm_compute; reflexivity
                | reflexivity]). }
  assert (Hdrop : filter (fun s => name s ∉ drop_candidates) out = out).
  { apply filter_all, Forall_forall. intros s Hs.
    apply (Hkeep (name s)). by apply list_elem_of_fmap_2. }
  assert (Hpub : to_public <$> out = out).
  { rewrite <- (list_fmap_id out) at 2. apply list_fmap_ext. intros i s Hs.
    simpl. unfold to_public.
    rewrite (proj2 (Hkeep (name s)
               (list_elem_of_fmap_2 name _ _ (list_elem_of_lookup_2 _ _ _ Hs)))).
    by destruct s. }
  unfold format_joined. rewrite drop_step_spec. simpl. rewrite Hdrop.
  rewrite rename_step_spec.
  rewrite <- columns_to_public, Hpub, decide_True by done. simpl.
  assert (Gid : get_column out "image_id" = Some idc)
    by (subst out; by rewrite !get_column_with_column).
  assert (Gw : get_column out "image_width" = Some w)
    by (subst out; by rewrite !get_column_with_column).
  assert (Gh : get_column out "image_height" = Some h)
    by (subst out; by rewrite !get_column_with_column).
  rewrite (derive_step_fwd (height df) out idc w h) by done.
  f_equal.
  assert (Gpid : get_column out "parquet_id" = Some (parquet_id_series idc))
    by (subst out; by rewrite !get_column_with_column).
  assert (Gip : get_column out "image_path" = Some (image_path_series idc))
    by (subst out; by rewrite !get_column_with_column).
  assert (Gar : get_column out "aspect_ratio" = Some (aspect_ratio_series w h))
    by (subst out; by rewrite !get_column_with_column).
  rewrite (with_column_same out (parquet_id_series idc)) by done.
  rewrite (with_column_same out (image_path_series idc)) by done.
  by rewrite (with_column_same out (aspect_ratio_series w h)).
Qed.

Lemma format_joined_idempotent_witness :
  format_joined Sample.final_df = Ok Sample.final_df.
Proof.
  apply (format_joined_idempotent Sample.joined_df Sample.final_df).
  - apply (bool_decide_unpack _). vm_compute. reflexivity.
  - vm_compute. reflexivity.
Defined.

(** ** More on the join *)

Section JoinMore.
Implicit Types lk rk : list value.




End JoinMore.

(** X9. Whether the join cell returns depends on the two schemas only,
    never on the cells: it returns exactly when both frames have a [url]
    column, of one dtype, and the output names are distinct; the joined
    frame then has the downloaded frame's columns followed by the original
    frame's columns but [url], a name the downloaded frame already uses
    getting [_right] appended. *)
Theorem join_cell_returns_by_schema (dl og : DataFrame) :
  ((exists joined, join_cell dl og = Ok joined)
   <-> exists lk rk, get_column dl "url" = Some lk
         /\ get_column og "url" = Some rk
         /\ dtype lk = dtype rk
         /\ NoDup (join_columns dl og "url"))
  /\ forall joined, join_cell dl og = Ok joined ->
       columns joined
       = columns dl
         ++ ((fun s => if decide (name s ∈ columns dl)
                       then name s +:+ "_right" else name s)
               <$> filter (fun s => name s ≠ "url") og).
Proof.
  split; [split|].
  - intros [joined H]. unfold join_cell, join_left in H.
    bind_inv H as lk Hlk. bind_inv H as rk Hrk.
    apply column_Ok in Hlk, Hrk.
    case_decide as Ht; [|discriminate]. simpl in H.
    case_decide as Hnd; [|discriminate].
    exists lk, rk. rewrite columns_join_rows in Hnd. done.
  - intros (lk & rk & Hlk & Hrk & Ht & Hnd).
    exists (join_rows dl og "url" lk rk). by apply join_left_schema.
  - intros joined H. apply join_left_inv in H as (lk & rk & _ & _ & _ & ->).
    apply columns_join_rows.
Qed.

Lemma join_cell_returns_by_schema_witness :
  columns Sample.joined_df
  = columns Sample.downloaded_df
    ++ ((fun s => if decide (name s ∈ columns Sample.downloaded_df)
                  then name s +:+ "_right" else name s)
          <$> filter (fun s => name s ≠ "url") Sample.orig_df).
Proof.
  apply (join_cell_returns_by_schema Sample.downloaded_df Sample.orig_df).
  vm_compute. reflexivity.
Defined.





(** ** A key that is not a string *)

Section KeptColumns.
Implicit Types df : DataFrame.

Lemma kept_columns_subset df (c : string) :
c ∈ columns (filter (fun s => name s ∉ drop_candidates) df) -> c ∈ columns df.
Proof.
intros Hc. apply list_elem_of_fmap in Hc as (s & -> & Hs).
apply list_elem_of_filter in Hs as [_ Hs]. by apply list_elem_of_fmap_2.
Qed.

Lemma kept_columns_NoDup df :
NoDup (columns df) ->
NoDup (columns (filter (fun s => name s ∉ drop_candidates) df)).
Proof.
intros Hnd. unfold columns. apply NoDup_fmap_2_strong.
- intros x y Hx Hy Hxy.
  apply list_elem_of_filter in Hx as [_ Hx].
  apply list_elem_of_filter in Hy as [_ Hy].
  pose proof (get_column_unique df x Hnd Hx) as Gx.
  pose proof (get_column_unique df y Hnd Hy) as Gy.
  rewrite Hxy, Gy in Gx. by injection Gx.
- apply NoDup_filter. apply (NoDup_fmap_1 name). exact Hnd.
Qed.

(** On a frame that does not use the public names yet, the drop and the
  rename steps return the kept columns under their public names. *)
Lemma drop_rename_fresh df :
NoDup (columns df) ->
(forall new, new ∈ columns_to_rename.*2 -> new ∉ columns df) ->
(drop_step df ≫= rename_step)
= Ok (to_public <$> filter (fun s => name s ∉ drop_candidates) df)
/\ NoDup (public_name
            <$> columns (filter (fun s => name s ∉ drop_candidates) df)).
Proof.
intros Hnd Hfresh. rewrite drop_step_spec. simpl.
assert (Hfresh1 : forall new, new ∈ columns_to_rename.*2 ->
          new ∉ columns (filter (fun s => name s ∉ drop_candidates) df)).
{ intros new Hn Hc. by apply (Hfresh new Hn), kept_columns_subset. }
pose proof (kept_columns_NoDup df Hnd) as Hnd1.
split; [by apply rename_step_fresh|].
apply NoDup_fmap_2_strong; [|done].
intros x y Hx Hy. by apply (public_name_inj_on _ x y Hfresh1).
Qed.
End KeptColumns.

(** X12. When the [key] column is not a string column the format cell
    raises: [str.slice] is refused and no path is built from numbers. *)
Theorem format_rejects_non_string_key (df : DataFrame) (s : Series) :
  NoDup (columns df) ->
  (forall new, new ∈ columns_to_rename.*2 -> new ∉ columns df) ->
  get_column df "key" = Some s -> dtype s <> Utf8 ->
  exists e, format_joined df = Err e.
Proof.
  intros Hnd Hfresh Hs Ht.
  destruct (drop_rename_fresh df Hnd Hfresh) as [Hstep Hnd2].
  assert (Hkeep : "key" ∉ drop_candidates)
    by (apply (bool_decide_unpack _); vm_compute; reflexivity).
  pose proof (get_column_public df "key" s Hnd2 Hs Hkeep) as Hid.
  change (public_name "key") with "image_id" in Hid.
  exists SchemaError.
  unfold format_joined.
  change (drop_step df ≫= (fun joined_df => rename_step joined_df ≫= derive_step))
    with (x ← drop_step df; y ← rename_step x; derive_step y).
  destruct (drop_step df) as [d1|e1] eqn:E1; simpl in *; [|discriminate Hstep].
  rewrite Hstep. simpl.
  unfold derive_step, with_columns. simpl. unfold column. rewrite Hid. simpl.
  rewrite decide_False by done. reflexivity.
Qed.

Lemma format_rejects_non_string_key_witness :
  exists e,
    format_joined [mkSeries "url" Utf8 [VStr "u1"]; mkSeries "key" Int64 [VInt 10003]]
    = Err e.
Proof.
  apply (format_rejects_non_string_key
           [mkSeries "url" Utf8 [VStr "u1"]; mkSeries "key" Int64 [VInt 10003]]
           (mkSeries "key" Int64 [VInt 10003])).
  - apply (bool_decide_unpack _). vm_compute. reflexivity.
  - intros new Hnew. apply (bool_decide_unpack _).
    simpl in Hnew. rewrite !elem_of_cons, elem_of_nil in Hnew.
    destruct Hnew as [->|[->|[->|[]]]]; vm_compute; reflexivity.
  - reflexivity.
  - discriminate.
Defined.

(** ** The benchmark notebook *)

Import Benchmark.

Section Target.
Implicit Types df : DataFrame.

Lemma add_prefix_value (v : value) : add_value (VStr ovh_prefix) v = ovh_url_of v.
Proof. by destruct v. Qed.

Lemma eval_ovh_url n df p :
rect n df -> height df = n ->
get_column df "image_path" = Some p -> dtype p = Utf8 ->
eval df ovh_url_expr = Ok (mkSeries "ovh_url" Utf8 (ovh_url_of <$> values p)).
Proof.
intros Hrect Hh Hp Ht.
assert (Hlen : length (values p) = n).
{ apply get_column_Some in Hp as [Hin _].
  by apply (proj1 (Forall_forall _ _) Hrect). }
unfold ovh_url_expr. simpl. unfold column. rewrite Hp. simpl.
rewrite Ht. simpl. rewrite Hh.
rewrite zip_with_replicate_l by lia. do 2 f_equal.
Qed.

Lemma target_df_rect df c u w h p :
rect (height df) df ->
get_column df "caption" = Some c ->
get_column df "url" = Some u ->
get_column df "image_width" = Some w ->
get_column df "image_height" = Some h ->
get_column df "image_path" = Some p -> dtype p = Utf8 ->
target_df df
= Ok [c;
      mkSeries "public_url" (dtype u) (values u);
      mkSeries "ovh_url" Utf8 (ovh_url_of <$> values p);
      w; h].
Proof.
intros Hrect Hc Hu Hw Hh Hp Ht. unfold target_df.
assert (H1 : with_columns df [ovh_url_expr]
             = Ok (with_column df (mkSeries "ovh_url" Utf8 (ovh_url_of <$> values p)))).
{ apply with_columns_single. eexists. split; [|reflexivity].
  by apply (eval_ovh_url (height df)). }
rewrite H1. simpl.
unfold select, target_columns. simpl. unfold column.
rewrite !get_column_with_column. simpl.
rewrite Hc, Hu, Hw, Hh. simpl.
apply get_column_Some in Hc as [_ Hnc], Hu as [_ Hnu], Hw as [_ Hnw], Hh as [_ Hnh].
destruct c as [nc tc vc], u as [nu tu vu], w as [nw tw vw], h as [nh th vh].
simpl in *. subst. reflexivity.
Qed.
End Target.

(** X13. On a table with [caption], [url], [image_width], [image_height]
    and a string [image_path], the benchmark's [target_df] has exactly the
    columns [caption], [public_url] (the cells of [url]), [ovh_url],
    [image_width] and [image_height], in this order, and [ovh_url] is the
    bucket prefix followed by [image_path], null where [image_path] is
    null. *)
Theorem target_df_columns (df : DataFrame) (c u w h p : Series) :
  wf df ->
  get_column df "caption" = Some c ->
  get_column df "url" = Some u ->
  get_column df "image_width" = Some w ->
  get_column df "image_height" = Some h ->
  get_column df "image_path" = Some p -> dtype p = Utf8 ->
  target_df df
  = Ok [c;
        mkSeries "public_url" (dtype u) (values u);
        mkSeries "ovh_url" Utf8
          ((fun v => match v with
                     | VStr image_path =>
                         VStr ("s3://fc-gra-alejandria/ds/public/PD12M/"
                               +:+ image_path)
                     | _ => VNull
                     end) <$> values p);
        w; h].
Proof.
  intros Hwf. apply wf_rect in Hwf. by apply target_df_rect.
Qed.

Lemma target_df_columns_witness :
  target_df Sample.final_df_caption
  = Ok [mkSeries "caption" Utf8 [VStr "a cat"; VStr "a dog"; VStr "a bird"];
        mkSeries "public_url" Utf8 [VStr "u1"; VStr "u2"; VStr "u3"];
        mkSeries "ovh_url" Utf8
          [VStr "s3://fc-gra-alejandria/ds/public/PD12M/00001/000010003.jpg";
           VStr "s3://fc-gra-alejandria/ds/public/PD12M/00001/000010004.jpg";
           VStr "s3://fc-gra-alejandria/ds/public/PD12M/00002/000020001.jpg"];
        mkSeries "image_width" Int64 [VInt 100; VInt 200; VNull];
        mkSeries "image_height" Int64 [VInt 50; VInt 0; VNull]].
Proof.
  apply (target_df_columns Sample.final_df_caption
           (mkSeries "caption" Utf8 [VStr "a cat"; VStr "a dog"; VStr "a bird"])
           (mkSeries "url" Utf8 [VStr "u1"; VStr "u2"; VStr "u3"])
           (mkSeries "image_width" Int64 [VInt 100; VInt 200; VNull])
           (mkSeries "image_height" Int64 [VInt 50; VInt 0; VNull])
           (mkSeries "image_path" Utf8
              [VStr "00001/000010003.jpg"; VStr "00001/000010004.jpg";
               VStr "00002/000020001.jpg"])).
  - apply (bool_decide_unpack _). vm_compute. reflexivity.
  - reflexivity.
  - reflexivity.
  - reflexivity.
  - reflexivity.
  - reflexivity.
  - reflexivity.
Defined.

(** X14. The benchmark needs a [caption] column, which the format cell
    does not make: on a table with a string [image_path] and no [caption],
    [target_df] raises [ColumnNotFoundError] for [caption]. *)
Theorem target_df_needs_caption (df : DataFrame) (p : Series) :
  wf df ->
  get_column df "image_path" = Some p -> dtype p = Utf8 ->
  "caption" ∉ columns df ->
  target_df df = Err (ColumnNotFoundError "caption").
Proof.
  intros Hwf Hp Ht Hc. apply wf_rect in Hwf. unfold target_df.
  assert (H1 : with_columns df [ovh_url_expr]
               = Ok (with_column df (mkSeries "ovh_url" Utf8 (ovh_url_of <$> values p)))).
  { apply with_columns_single. eexists. split; [|reflexivity].
    by apply (eval_ovh_url (height df)). }
  rewrite H1. simpl.
  unfold select, target_columns. simpl. unfold column.
  rewrite !get_column_with_column. simpl.
  apply get_column_None in Hc. rewrite Hc. reflexivity.
Qed.

Lemma target_df_needs_caption_witness :
  target_df Sample.final_df = Err (ColumnNotFoundError "caption").
Proof.
  apply (target_df_needs_caption Sample.final_df
           (mkSeries "image_path" Utf8
              [VStr "00001/000010003.jpg"; VStr "00001/000010004.jpg";
               VStr "00002/000020001.jpg"])).
  - apply (bool_decide_unpack _). vm_compute. reflexivity.
  - reflexivity.
  - reflexivity.
  - apply (bool_decide_unpack _). vm_compute. reflexivity.
Defined.



(** ** Loading times *)

Section Measure.
Variable load : string -> option float64.

Lemma measure_loop_from (total : float64) (n : nat) (urls : list string) :
foldl (fun '(total_time, successful_loads) url =>
         match load url with
         | Some elapsed => (float_add total_time elapsed, S successful_loads)
         | None => (total_time, successful_loads)
         end)
      (total, n) urls
= (foldl float_add total (omap load urls), n + length (omap load urls)).
Proof.
revert total n. induction urls as [|url urls IH]; intros total n; simpl.
- f_equal. lia.
- destruct (load url) as [elapsed|]; rewrite IH; [|reflexivity].
  cbn [omap list_omap length foldl].
  change (list_omap string float64 load urls) with (omap load urls).
  f_equal. lia.
Qed.
End Measure.

(** X16. [measure_image_loading_time] averages over the loads that
    succeeded, in the order of the urls: a load that raises adds nothing to
    the total and nothing to the count, and when no load succeeds (or there
    is no url) the result is +infinity. *)
Theorem measure_averages_successful_loads
    (load : string -> option float64) (urls : list string) :
  measure_image_loading_time load urls
  = match omap load urls with
    | [] => S754_infinity false
    | elapsed =>
        float_div (foldl float_add (float_of_int 0) elapsed)
                  (float_of_int (Z.of_nat (length elapsed)))
    end.
Proof.
  unfold measure_image_loading_time, measure_loop.
  rewrite measure_loop_from. simpl.
  destruct (omap load urls) as [|x xs]; [done|]. simpl.
  reflexivity.
Qed.
